(** * cat2axy: SExtractor catalogue to astrometry.net coordinate list

    A shallow embedding of [src/cat2axy.cpp] and the properties of its
    three stages: [load_cat] (parse, quality cut, sort by flux),
    [select_refstar] (grid binning with a per-counter cap) and the driver
    [main] that hands the selection to [output_axy].

    Conventions of the embedding:
    - a C [int] is a [Z]; an operation whose mathematical result leaves the
      32-bit range is signed overflow, which C++ leaves undefined, and is
      rendered as [None];
    - a C [float] is a [spec_float] read at precision 24 and maximal
      exponent 128 (IEEE binary32, round to nearest even);
    - a C string is a [string]; a text file is the string of its bytes;
    - [std::sort], [atof], [atoi], boost's [replace_extension], the file
      system and cfitsio are library code: they enter as parameters, the
      first with the contract the C++ standard gives it. *)

From Stdlib Require Import ZArith List String Ascii Bool Lia.
From Stdlib Require Import Permutation Sorted.
From Stdlib Require Import Floats.SpecFloat.
From Equations Require Import Equations.
Import ListNotations.

Open Scope Z_scope.

(** ** Undefined behaviour as a failure monad *)

Definition bind {A B : Type} (m : option A) (k : A -> option B) : option B :=
  match m with
  | Some a => k a
  | None => None
  end.

Notation "x <- m ;; k" := (bind m (fun x => k))
  (at level 61, m at next level, right associativity).

(** ** C [int] *)

Module CInt.

Definition INT_MIN : Z := -2147483648.
Definition INT_MAX : Z := 2147483647.

Definition in_range (z : Z) : bool := (INT_MIN <=? z) && (z <=? INT_MAX).

(** The value of an [int] expression, when it is representable. *)
Definition checked (z : Z) : option Z := if in_range z then Some z else None.

Definition add (a b : Z) : option Z := checked (a + b).
Definition sub (a b : Z) : option Z := checked (a - b).
Definition mul (a b : Z) : option Z := checked (a * b).

(** [/] and [%] truncate toward zero; the divisors of the program are the
    positive constants [GRID] and [2], so neither can overflow. *)
Definition div (a b : Z) : Z := Z.quot a b.
Definition rem (a b : Z) : Z := Z.rem a b.

End CInt.

(** ** C [float] *)

Module F32.

Definition prec : Z := 24.
Definition emax : Z := 128.

Definition float : Type := spec_float.

(** Conversion of an [int] to [float]. *)
Definition of_int (z : Z) : float := binary_normalize prec emax z 0 false.

Definition zero : float := S754_zero false.

Definition sub (a b : float) : float := SFsub prec emax a b.
Definition div (a b : float) : float := SFdiv prec emax a b.

(** The comparisons of the program are made after promotion to [double]
    against the literals 30.0, 1.0 and 2.0. Promotion is exact and the
    three literals are binary32 values, so each comparison is the
    comparison of two binary32 values. *)
Definition lt (a b : float) : bool := SFltb a b.
Definition gt (a b : float) : bool := SFltb b a.
Definition ge (a b : float) : bool := SFleb b a.

(** Integral part of a finite value, rounded toward zero. *)
Definition trunc (f : float) : option Z :=
  match f with
  | S754_zero _ => Some 0
  | S754_finite s m e =>
      let mag := Z.shiftl (Zpos m) e in
      Some (if s then - mag else mag)
  | S754_infinity _ | S754_nan => None
  end.

(** Conversion of a [float] to [int]: the fractional part is discarded;
    the behaviour is undefined when the integral part is not an [int]. *)
Definition to_int (f : float) : option Z :=
  z <- trunc f ;; CInt.checked z.

(** Largest integer not above a finite value. *)
Definition floor (f : float) : option Z :=
  match f with
  | S754_zero _ => Some 0
  | S754_finite s m e => Some (Z.shiftl (if s then Zneg m else Zpos m) e)
  | S754_infinity _ | S754_nan => None
  end.

(** Smallest integer not below a finite value. *)
Definition ceil (f : float) : option Z :=
  match f with
  | S754_zero _ => Some 0
  | S754_finite s m e => Some (- Z.shiftl (if s then Zpos m else Zneg m) e)
  | S754_infinity _ | S754_nan => None
  end.

(** Values strictly above a positive finite bound: they are positive and
    are not NaN. *)
Definition positive (f : float) : bool :=
  match f with
  | S754_finite false _ _ | S754_infinity false => true
  | _ => false
  end.

End F32.

Abbreviation float := F32.float.

(** ** The catalogue record *)

Definition GRID : Z := 128.
Definition NDX_X : nat := 0.
Definition NDX_Y : nat := 1.
Definition NDX_FLUX : nat := 2.
Definition NDX_FWHM : nat := 3.
Definition NDX_ELON : nat := 4.
Definition NDX_NUM : nat := S NDX_ELON.

(** [struct aobject { float info[NDX_NUM]; }]: one field per index. *)
Record aobject : Type := mk_aobject {
  info_x : float;
  info_y : float;
  info_flux : float;
  info_fwhm : float;
  info_elon : float
}.

(** [one->info[ndx]] for [ndx < NDX_NUM]. *)
Definition info (one : aobject) (ndx : nat) : float :=
  match ndx with
  | 0%nat => info_x one
  | 1%nat => info_y one
  | 2%nat => info_flux one
  | 3%nat => info_fwhm one
  | _ => info_elon one
  end.

(** [one->info[ndx] = v] for [ndx < NDX_NUM]. *)
Definition set_info (one : aobject) (ndx : nat) (v : float) : aobject :=
  match ndx with
  | 0%nat => mk_aobject v (info_y one) (info_flux one) (info_fwhm one) (info_elon one)
  | 1%nat => mk_aobject (info_x one) v (info_flux one) (info_fwhm one) (info_elon one)
  | 2%nat => mk_aobject (info_x one) (info_y one) v (info_fwhm one) (info_elon one)
  | 3%nat => mk_aobject (info_x one) (info_y one) (info_flux one) v (info_elon one)
  | _ => mk_aobject (info_x one) (info_y one) (info_flux one) (info_fwhm one) v
  end.

(** The records are immutable once built, so a [shared_ptr] to a record is
    the record. *)
Definition objptr : Type := aobject.
Definition objptrvec : Type := list objptr.

(** [boost::make_shared<aobject>()] value-initialises the new object: the
    five floats are zero. *)
Definition make_shared : objptr :=
  mk_aobject F32.zero F32.zero F32.zero F32.zero F32.zero.

Definition less_brightness (x1 x2 : objptr) : bool :=
  F32.gt (info x1 NDX_FLUX) (info x2 NDX_FLUX).

(** ** [stdio] and [string.h] *)

Open Scope string_scope.
Open Scope list_scope.
Open Scope Z_scope.

Definition NUL : ascii := "000"%char.
Definition LF : ascii := "010"%char.
Definition CR : ascii := "013"%char.
Definition SP : ascii := " "%char.

(** A stream open for reading: the bytes not yet read and the end-of-file
    indicator. Reads do not fail: [fgets] returns the null pointer at the
    end of the file only. *)
Record FILE : Type := mk_FILE {
  unread : string;
  at_eof : bool
}.

Definition feof (fp : FILE) : bool := at_eof fp.

(** The scan of [fgets]: at most [n] bytes, stopping after a newline; the
    flag tells that the end of the file was hit while looking for more. *)
Fixpoint fgets_scan (n : nat) (s : string) : string * string * bool :=
  match n with
  | O => (EmptyString, s, false)
  | S n' =>
      match s with
      | EmptyString => (EmptyString, EmptyString, true)
      | String c s' =>
          if Ascii.eqb c LF then (String c EmptyString, s', false)
          else let '(l, r, e) := fgets_scan n' s' in (String c l, r, e)
      end
  end.

(** [fgets(line, size, fp)]: [None] is the null pointer, returned when the
    end of the file is met before any byte. *)
Definition fgets (size : nat) (fp : FILE) : option string * FILE :=
  let '(l, r, e) := fgets_scan (size - 1) (unread fp) in
  (match l with EmptyString => None | _ => Some l end,
   mk_FILE r (at_eof fp || e)).

(** What the string functions see of a buffer: the bytes before the first
    NUL. *)
Fixpoint c_str (buf : string) : string :=
  match buf with
  | EmptyString => EmptyString
  | String c rest => if Ascii.eqb c NUL then EmptyString else String c (c_str rest)
  end.

Fixpoint is_sep (seps : string) (c : ascii) : bool :=
  match seps with
  | EmptyString => false
  | String d rest => Ascii.eqb c d || is_sep rest c
  end.

Definition flush (tok : string) : list string :=
  match tok with
  | EmptyString => []
  | _ => [tok]
  end.

(** The tokens that [strtok(line, seps)] and the following
    [strtok(NULL, seps)] calls return, in order; [tok] is the token being
    scanned. *)
Fixpoint strtok_from (seps : string) (tok : string) (s : string) : list string :=
  match s with
  | EmptyString => flush tok
  | String c rest =>
      if is_sep seps c then flush tok ++ strtok_from seps EmptyString rest
      else strtok_from seps (tok ++ String c EmptyString) rest
  end.

Definition strtok (line : string) (seps : string) : list string :=
  strtok_from seps EmptyString (c_str line).

Definition inspect {A : Type} (x : A) : { y : A | x = y } := exist _ x eq_refl.

Definition file_measure (fp : FILE) : nat :=
  (2 * String.length (unread fp) + (if at_eof fp then 0 else 1))%nat.

Lemma fgets_scan_length n s l r e :
  fgets_scan n s = (l, r, e) ->
  (String.length s = String.length l + String.length r)%nat /\
  (n <> O -> l = EmptyString -> e = true /\ r = EmptyString).
Proof.
  revert s l r e. induction n as [|n IH]; intros s l r e H; simpl in H.
  - inversion H; subst. simpl. split; [reflexivity | congruence].
  - destruct s as [|c s'].
    + inversion H; subst. simpl. auto.
    + destruct (Ascii.eqb c LF).
      * inversion H; subst. simpl. split; [reflexivity | discriminate].
      * destruct (fgets_scan n s') as [[l' r'] e'] eqn:E.
        inversion H; subst. destruct (IH _ _ _ _ E) as [Hl _].
        simpl. split; [lia | discriminate].
Qed.

Lemma fgets_decreases fp res fp' :
  feof fp = false -> fgets 200 fp = (res, fp') ->
  (file_measure fp' < file_measure fp)%nat.
Proof.
  unfold feof, fgets, file_measure. intros Hf H.
  destruct (fgets_scan (200 - 1) (unread fp)) as [[l r] e] eqn:E.
  inversion H; subst; clear H. rewrite Hf. simpl at_eof. simpl unread.
  apply fgets_scan_length in E. destruct E as [Hlen Hnil].
  destruct l as [|c l].
  - destruct Hnil as [-> ->]; [discriminate | reflexivity |]. simpl in *. lia.
  - simpl in Hlen. destruct e; lia.
Qed.

(** ** [std::sort] *)

(** The requirement that [std::sort] puts on its comparison, for the values
    it is asked to sort: a strict weak ordering. *)
Definition strict_weak_order_on {A : Type} (cmp : A -> A -> bool) (l : list A) : Prop :=
  (forall a, In a l -> cmp a a = false) /\
  (forall a b c, In a l -> In b l -> In c l ->
     cmp a b = true -> cmp b c = true -> cmp a c = true) /\
  (forall a b c, In a l -> In b l -> In c l ->
     cmp a b = false -> cmp b a = false ->
     cmp b c = false -> cmp c b = false ->
     cmp a c = false /\ cmp c a = false).

(** The order [std::sort] leaves: no element is ordered before one that
    precedes it. *)
Definition sorted_by {A : Type} (cmp : A -> A -> bool) (l : list A) : Prop :=
  StronglySorted (fun a b => cmp b a = false) l.

(** The contract of [std::sort(first, last, comp)]: under the requirement,
    the range is rearranged and comes out ordered. Nothing is said of the
    relative order of equivalent elements. *)
Class StdSort : Type := {
  std_sort : (objptr -> objptr -> bool) -> objptrvec -> objptrvec;
  std_sort_permutation : forall cmp l,
    strict_weak_order_on cmp l -> Permutation l (std_sort cmp l);
  std_sort_sorted : forall cmp l,
    strict_weak_order_on cmp l -> sorted_by cmp (std_sort cmp l)
}.

(** ** Reference instances of the library parameters

    Executable stand-ins, used to run the program on concrete inputs. *)

(** An insertion sort: a new element goes before the first element that
    the comparison orders after it, hence behind its equivalents. *)
Fixpoint insert_by (cmp : objptr -> objptr -> bool) (x : objptr) (l : objptrvec)
  : objptrvec :=
  match l with
  | [] => [x]
  | y :: rest => if cmp x y then x :: l else y :: insert_by cmp x rest
  end.

Definition insertion_sort (cmp : objptr -> objptr -> bool) (l : objptrvec)
  : objptrvec :=
  fold_right (insert_by cmp) [] l.

(** The same, with a new element placed before its equivalents. *)
Fixpoint insert_front_by (cmp : objptr -> objptr -> bool) (x : objptr) (l : objptrvec)
  : objptrvec :=
  match l with
  | [] => [x]
  | y :: rest => if cmp y x then y :: insert_front_by cmp x rest else x :: l
  end.

Definition insertion_sort_front (cmp : objptr -> objptr -> bool) (l : objptrvec)
  : objptrvec :=
  fold_right (insert_front_by cmp) [] l.

Definition digit_of (c : ascii) : option Z :=
  let n := Z.of_nat (nat_of_ascii c) in
  if (48 <=? n) && (n <=? 57) then Some (n - 48) else None.

(** The value of the longest prefix of decimal digits. *)
Fixpoint digits_value (acc : Z) (s : string) : Z :=
  match s with
  | EmptyString => acc
  | String c rest =>
      match digit_of c with
      | Some d => digits_value (10 * acc + d) rest
      | None => acc
      end
  end.

Definition strtol_dec (s : string) : Z :=
  match s with
  | String "-" rest => - digits_value 0 rest
  | String "+" rest => digits_value 0 rest
  | _ => digits_value 0 s
  end.

(** [atof] on the tokens that are decimal integers of magnitude below
    2^24, followed or not by bytes that are not digits: the value is exact
    in [double] and in [float]. *)
Definition atof_int (token : string) : float := F32.of_int (strtol_dec token).

(** [atoi] on decimal integers in the [int] range. *)
Definition atoi_dec (s : string) : Z := strtol_dec s.

(** The part of a name before its last dot, when it has one. *)
Fixpoint stem (s : string) : option string :=
  match s with
  | EmptyString => None
  | String c rest =>
      match stem rest with
      | Some t => Some (String c t)
      | None => if Ascii.eqb c "."%char then Some EmptyString else None
      end
  end.

(** [replace_extension] on a file name without directory part. *)
Definition replace_extension_name (p ext : string) : string :=
  match stem p with
  | Some t => (t ++ ext)%string
  | None => (p ++ ext)%string
  end.

(** A candidate at the pixel [(x, y)] that passes the cut. *)
Definition star (x y : Z) : objptr :=
  mk_aobject (F32.of_int x) (F32.of_int y)
             (F32.of_int 100) (F32.of_int 3) (F32.of_int 1).

(** *** Sample inputs *)

(** A line of text with its newline. *)
Definition text_line (fields : string) : string :=
  (fields ++ String LF EmptyString)%string.

(** A comment, a faint source between two bright ones, and three more
    bright sources. *)
Definition sample_cat : string :=
  String.concat ""
    (map text_line
       ["# x y flux fwhm elongation";
        "10 10 50 3 1"; "30 40 20 3 1"; "50 60 80 3 1";
        "70 20 60 3 1"; "90 90 70 3 1"; "20 80 40 3 1"]).

(** Two sources of equal flux. *)
Definition ties_cat : string :=
  String.concat "" (map text_line ["7 7 90 3 1"; "8 8 90 3 1"]).

(** A single line of four tokens: no elongation. *)
Definition four_tokens_cat : string := text_line "10 20 50 3".

(** A comment and a line of four tokens. *)
Definition comment_and_short_cat : string :=
  String.concat "" (map text_line ["# x y flux fwhm"; "12 34 56 7"]).

(** Comments and lines of at most three tokens. *)
Definition comments_only_cat : string :=
  String.concat "" (map text_line ["# nothing here"; "1 2 50"; "# the end"]).

(** A file system with the one file [name]. *)
Definition one_file (name bytes : string) (path : string) : option string :=
  if String.eqb path name then Some bytes else None.

Definition record (x y flux fwhm elon : Z) : objptr :=
  mk_aobject (F32.of_int x) (F32.of_int y)
             (F32.of_int flux) (F32.of_int fwhm) (F32.of_int elon).

(** The command line of a run on [sample_cat], and the references that
    the run selects. *)
Definition sample_argv : list string := ["cat2axy"; "sample.cat"; "512"; "512"].

Definition sample_refs : objptrvec :=
  [record 50 60 80 3 1; record 90 90 70 3 1; record 70 20 60 3 1;
   record 10 10 50 3 1; record 20 80 40 3 1].

(** ** The program *)

Section Cat2axy.

Set Default Proof Using "Type".

(** [atof], followed by the conversion of its [double] to the [float] it
    is stored in. *)
Variable atof : string -> float.

Context {sorter : StdSort}.

(** The files that can be opened for reading, with their bytes. *)
Variable readable : string -> option string.

Definition fopen (filepath : string) : option FILE :=
  match readable filepath with
  | Some bytes => Some (mk_FILE bytes false)
  | None => None
  end.

(** *** [load_cat] *)

Definition seps : string := String SP (String CR EmptyString).

(** The loop [while (token && ++pos < NDX_NUM)]; [next] is the index the
    coming token is stored at, one more than [pos] before its
    increment. *)
Fixpoint fill (next : nat) (tokens : list string) (one : objptr) : objptr :=
  match tokens with
  | [] => one
  | token :: rest =>
      if (next <? NDX_NUM)%nat
      then fill (S next) rest (set_info one next (atof token))
      else one
  end.

(** The record built from one line. *)
Definition parse_line (line : string) : objptr :=
  fill 0 (strtok line seps) make_shared.

Definition quality_cut (one : objptr) : bool :=
  F32.gt (info one NDX_FLUX) (F32.of_int 30)
  && F32.gt (info one NDX_FWHM) (F32.of_int 1)
  && F32.lt (info one NDX_ELON) (F32.of_int 2).

(** [line[0] == '#'] *)
Definition is_comment (line : string) : bool :=
  match line with
  | String c _ => Ascii.eqb c "#"%char
  | EmptyString => false
  end.

(** The body of the reading loop for a line that is not skipped. *)
Definition scan_line (line : string) (objs : objptrvec) : objptrvec :=
  let one := parse_line line in
  if quality_cut one then objs ++ [one] else objs.

(** [while (!feof(fpcat)) { ... }] *)
Equations? cat_loop (fp : FILE) (objs : objptrvec) : objptrvec
  by wf (file_measure fp) lt :=
  cat_loop fp objs with inspect (feof fp) := {
    | exist _ true _ => objs
    | exist _ false Hf with inspect (fgets 200 fp) := {
        | exist _ (None, fp') Hg => cat_loop fp' objs
        | exist _ (Some line, fp') Hg =>
            if is_comment line then cat_loop fp' objs
            else cat_loop fp' (scan_line line objs) } }.
Proof. all: eapply fgets_decreases; eassumption. Qed.

Definition load_cat (filepath : string) (objs : objptrvec) : bool * objptrvec :=
  match fopen filepath with
  | Some fpcat => (true, std_sort less_brightness (cat_loop fpcat objs))
  | None => (false, objs)
  end.

(** The lines that the reading loop gets from [fgets]. *)
Equations? read_lines (fp : FILE) : list string
  by wf (file_measure fp) lt :=
  read_lines fp with inspect (feof fp) := {
    | exist _ true _ => []
    | exist _ false Hf with inspect (fgets 200 fp) := {
        | exist _ (None, fp') Hg => read_lines fp'
        | exist _ (Some line, fp') Hg => line :: read_lines fp' } }.
Proof. all: eapply fgets_decreases; eassumption. Qed.

(** The records that the loop builds: one for each line that is not a
    comment. *)
Definition parsed_records (fp : FILE) : list objptr :=
  map parse_line (filter (fun line => negb (is_comment line)) (read_lines fp)).

(** *** [select_refstar] *)

(** [(v - origin) / GRID] stored in an [int]: [origin] and [GRID] are
    converted to [float], the difference and the quotient are [float]
    operations, and the quotient is converted to [int]. *)
Definition coord_quotient (v : float) (origin : Z) : float :=
  F32.div (F32.sub v (F32.of_int origin)) (F32.of_int GRID).

Definition grid_coord (v : float) (origin : Z) : option Z :=
  F32.to_int (coord_quotient v origin).

(** [map[k]] for the array [map] of [length map] counters; an access
    outside the array is undefined. *)
Definition map_get (map : list Z) (k : Z) : option Z :=
  if 0 <=? k then nth_error map (Z.to_nat k) else None.

Fixpoint list_set (map : list Z) (n : nat) (v : Z) : list Z :=
  match map, n with
  | [], _ => []
  | _ :: rest, O => v :: rest
  | c :: rest, S n' => c :: list_set rest n' v
  end.

(** [map[k] = v], after [map_get map k] has succeeded. *)
Definition map_set (map : list Z) (k : Z) (v : Z) : list Z :=
  list_set map (Z.to_nat k) v.

(** The state of the selection loop: the counters and the references
    pushed so far. *)
Definition select_state : Type := (list Z * objptrvec)%type.

(** The two cell coordinates computed for a candidate. *)
Definition cell_of (x0 y0 : Z) (it : objptr) : option (Z * Z) :=
  i <- grid_coord (info it NDX_X) x0 ;;
  j <- grid_coord (info it NDX_Y) y0 ;;
  Some (i, j).

(** One turn of the loop over the candidates. *)
Definition select_step (nw nh x0 y0 : Z) (st : select_state) (it : objptr)
  : option select_state :=
  c <- cell_of x0 y0 it ;;
  let '(i, j) := c in
  if (i =? nw) || (j =? nh) then Some st
  else
    k <- CInt.mul i j ;;
    n <- map_get (fst st) k ;;
    if n <=? 5 then Some (map_set (fst st) k (n + 1), snd st ++ [it])
    else Some st.

Fixpoint select_loop (nw nh x0 y0 : Z) (st : select_state) (objs : objptrvec)
  : option select_state :=
  match objs with
  | [] => Some st
  | it :: rest =>
      st' <- select_step nw nh x0 y0 st it ;;
      select_loop nw nh x0 y0 st' rest
  end.

(** [(d + GRID - 1) / GRID] *)
Definition grid_count (d : Z) : option Z :=
  a <- CInt.add d GRID ;;
  b <- CInt.sub a 1 ;;
  Some (CInt.div b GRID).

(** [(d % GRID) / 2] *)
Definition grid_origin (d : Z) : Z := CInt.div (CInt.rem d GRID) 2.

(** [refs] is the vector the function pushes to; the result is its final
    content. *)
Definition select_refstar (objs : objptrvec) (w h : Z) (refs : objptrvec)
  : option objptrvec :=
  nw <- grid_count w ;;
  nh <- grid_count h ;;
  n <- CInt.mul nw nh ;;
  if n <? 4 then Some (refs ++ objs)
  else
    let x0 := grid_origin w in
    let y0 := grid_origin h in
    let map := repeat 0 (Z.to_nat n) in
    st <- select_loop nw nh x0 y0 (map, refs) objs ;;
    Some (snd st).

(** *** [output_axy] and [main] *)

(** What a run does to the outside: lines on the standard output, the
    removal of a file, and the cfitsio calls. *)
Inductive event : Type :=
| Stdout (text : string)
| FsRemove (path : string)
| FitsCreateFile (path : string)
| FitsInsertBtbl (naxis2 : nat) (tfields : Z) (ttype tform : list string)
| FitsWriteCol (colnum firstrow firstelem : Z) (nelem : nat) (array : list float)
| FitsCloseFile.

(** [fs::exists] *)
Variable path_exists : string -> bool.

(** The status that cfitsio leaves after a sequence of calls, and the text
    [ffgerr] gives for a status. *)
Variable fits_status : list event -> Z.
Variable ffgerr : Z -> string.

Definition output_axy (refs : objptrvec) (filepath : string) : list event :=
  let n := List.length refs in
  let x := map (fun r => info r NDX_X) refs in
  let y := map (fun r => info r NDX_Y) refs in
  let calls :=
    [ FitsCreateFile filepath;
      FitsInsertBtbl n 2 ["X"; "Y"] ["E"; "E"];
      FitsWriteCol 1 1 1 n x;
      FitsWriteCol 2 1 1 n y;
      FitsCloseFile ] in
  let status := fits_status calls in
  (if path_exists filepath then [FsRemove filepath] else [])
  ++ calls
  ++ (if status =? 0 then [] else [Stdout (ffgerr status)]).

Variable atoi : string -> Z.

(** [path::replace_extension] *)
Variable replace_extension : string -> string -> string.

Definition TAB : ascii := "009"%char.

Definition usage (argv : list string) : list event :=
  [ Stdout "Usage:";
    Stdout (String TAB " cat2axy CAT_Path X Y");
    Stdout (String.concat "" (map (fun a => (a ++ "  ")%string) argv)) ].

(** The events of a run and its return value; [None] when the run has
    undefined behaviour. *)
Definition main (argv : list string) : option (list event * Z) :=
  if (List.length argv <? 4)%nat then Some (usage argv, -1)
  else
    let pathcat := nth 1 argv "" in
    let w := atoi (nth 2 argv "") in
    let h := atoi (nth 3 argv "") in
    let pathaxy := replace_extension pathcat ".axy" in
    match load_cat pathcat [] with
    | (true, objs) =>
        refs <- select_refstar objs w h [] ;;
        if (5 <=? List.length refs)%nat
        then Some (output_axy refs pathaxy, 0)
        else Some ([Stdout "not found enough reference stars"], 0)
    | (false, _) =>
        Some ([Stdout ("failed to load CAT file: " ++ pathcat)%string], 0)
    end.

(** ** Notions used to state the properties *)

(** The ceiling of [a / b] for a positive [b]. *)
Definition ceil_div (a b : Z) : Z := - ((- a) / b).

(** The cell coordinate as a floor: the largest integer not above the
    quotient. *)
Definition floor_coord (v : float) (origin : Z) : option Z :=
  F32.floor (coord_quotient v origin).

(** The index of the counter that a candidate tests, when it is not
    discarded on the boundary. *)
Definition counter_index (nw nh x0 y0 : Z) (it : objptr) : option Z :=
  match cell_of x0 y0 it with
  | Some (i, j) => if (i =? nw) || (j =? nh) then None else Some (i * j)
  | None => None
  end.

Definition maps_to (nw nh x0 y0 : Z) (k : Z) (it : objptr) : bool :=
  match counter_index nw nh x0 y0 it with
  | Some k' => k' =? k
  | None => false
  end.

(** The number of references that map to the counter [k]. *)
Definition hits (nw nh x0 y0 : Z) (k : Z) (refs : objptrvec) : nat :=
  List.length (filter (maps_to nw nh x0 y0 k) refs).

(** The turn of the loop for this candidate is defined with an array of
    [size] counters: its coordinates are [int]s and, unless it is discarded
    on the boundary, the counter it tests is in the array. *)
Definition access_defined (nw nh x0 y0 : Z) (size : Z) (it : objptr) : bool :=
  match cell_of x0 y0 it with
  | Some (i, j) =>
      (i =? nw) || (j =? nh) || ((0 <=? i * j) && (i * j <? size))
  | None => false
  end.

(** The invariant of the loop: a counter holds the number of references
    that map to it and is at most 6, and no reference maps outside the
    array. *)
Definition counters_agree (nw nh x0 y0 : Z) (st : select_state) : Prop :=
  forall k,
    match map_get (fst st) k with
    | Some n => n = Z.of_nat (hits nw nh x0 y0 k (snd st)) /\ n <= 6
    | None => hits nw nh x0 y0 k (snd st) = O
    end.

(** A record whose flux is positive. *)
Definition bright (one : objptr) : Prop :=
  F32.positive (info one NDX_FLUX) = true.

(** The files that the events of a run create. *)
Fixpoint created_files (trace : list event) : list string :=
  match trace with
  | [] => []
  | FitsCreateFile path :: rest => path :: created_files rest
  | _ :: rest => created_files rest
  end.

(** * Properties *)

(** ** The order of positive [float] values *)

Ltac split_compare :=
  repeat match goal with
  | |- context [Z.compare ?x ?y] => destruct (Z.compare_spec x y)
  | H : context [Z.compare ?x ?y] |- _ => destruct (Z.compare_spec x y)
  | |- context [Pos.compare_cont Eq ?x ?y] =>
      change (Pos.compare_cont Eq x y) with (Pos.compare x y);
      destruct (Pos.compare_spec x y)
  | H : context [Pos.compare_cont Eq ?x ?y] |- _ =>
      change (Pos.compare_cont Eq x y) with (Pos.compare x y) in H;
      destruct (Pos.compare_spec x y)
  end.

Ltac positive_cases f H :=
  destruct f as [[|]|[|]| |[|] ? ?]; simpl in H; try discriminate H; clear H.

Ltac float_order :=
  unfold SFltb, SFleb, SFcompare in *;
  split_compare; subst; try discriminate; try lia; auto.

Lemma above_positive (bound f : float) :
  F32.positive bound = true -> SFltb bound f = true -> F32.positive f = true.
Proof.
  intros Hb H. positive_cases bound Hb;
    destruct f as [[|]|[|]| |[|] ? ?]; simpl in *; try discriminate; reflexivity.
Qed.

Lemma SFltb_irrefl (a : float) : SFltb a a = false.
Proof.
  destruct a as [[|]|[|]| |[|] m e]; try reflexivity; float_order.
Qed.

Lemma SFltb_trans (a b c : float) :
  F32.positive a = true -> F32.positive b = true -> F32.positive c = true ->
  SFltb a b = true -> SFltb b c = true -> SFltb a c = true.
Proof.
  intros Ha Hb Hc. positive_cases a Ha; positive_cases b Hb; positive_cases c Hc;
    intros H1 H2; float_order.
Qed.

Lemma SFltb_negtrans (a b c : float) :
  F32.positive a = true -> F32.positive b = true -> F32.positive c = true ->
  SFltb a b = false -> SFltb b c = false -> SFltb a c = false.
Proof.
  intros Ha Hb Hc. positive_cases a Ha; positive_cases b Hb; positive_cases c Hc;
    intros H1 H2; float_order.
Qed.

Lemma SFltb_false_leb (a b : float) :
  F32.positive a = true -> F32.positive b = true ->
  SFltb a b = false -> SFleb b a = true.
Proof.
  intros Ha Hb. positive_cases a Ha; positive_cases b Hb; intros H; float_order.
Qed.

(** ** The reading loop *)

Lemma cat_loop_eqn fp objs :
  cat_loop fp objs =
  if feof fp then objs
  else match fgets 200 fp with
       | (None, fp') => cat_loop fp' objs
       | (Some line, fp') =>
           if is_comment line then cat_loop fp' objs
           else cat_loop fp' (scan_line line objs)
       end.
Proof.
  simp cat_loop.
  enough (H : forall s : {b : bool | feof fp = b},
             cat_loop_unfold_clause_1 fp s objs =
             if proj1_sig s then objs
             else match fgets 200 fp with
                  | (None, fp') => cat_loop fp' objs
                  | (Some line, fp') =>
                      if is_comment line then cat_loop fp' objs
                      else cat_loop fp' (scan_line line objs)
                  end) by exact (H (inspect (feof fp))).
  intros [[|] e]; simp cat_loop; [reflexivity|]. simpl proj1_sig.
  enough (H : forall s : {r : option string * FILE | fgets 200 fp = r},
             cat_loop_unfold_clause_1_clause_2 fp s e objs =
             match proj1_sig s with
             | (None, fp') => cat_loop fp' objs
             | (Some line, fp') =>
                 if is_comment line then cat_loop fp' objs
                 else cat_loop fp' (scan_line line objs)
             end) by exact (H (inspect (fgets 200 fp))).
  intros [[[line|] fp'] e']; simpl proj1_sig; simp cat_loop; reflexivity.
Qed.

Lemma read_lines_eqn fp :
  read_lines fp =
  if feof fp then []
  else match fgets 200 fp with
       | (None, fp') => read_lines fp'
       | (Some line, fp') => line :: read_lines fp'
       end.
Proof.
  simp read_lines.
  enough (H : forall s : {b : bool | feof fp = b},
             read_lines_unfold_clause_1 fp s =
             if proj1_sig s then []
             else match fgets 200 fp with
                  | (None, fp') => read_lines fp'
                  | (Some line, fp') => line :: read_lines fp'
                  end) by exact (H (inspect (feof fp))).
  intros [[|] e]; simp read_lines; [reflexivity|]. simpl proj1_sig.
  enough (H : forall s : {r : option string * FILE | fgets 200 fp = r},
             read_lines_unfold_clause_1_clause_2 fp s e =
             match proj1_sig s with
             | (None, fp') => read_lines fp'
             | (Some line, fp') => line :: read_lines fp'
             end) by exact (H (inspect (fgets 200 fp))).
  intros [[[line|] fp'] e']; simpl proj1_sig; simp read_lines; reflexivity.
Qed.

(** The loop pushes, in the order of the file, the parsed records that
    pass the cut. *)
Lemma cat_loop_pushes fp objs :
  cat_loop fp objs = objs ++ filter quality_cut (parsed_records fp).
Proof.
  remember (file_measure fp) as n eqn:Hn.
  revert fp objs Hn.
  induction n as [n IH] using (well_founded_induction Wf_nat.lt_wf).
  intros fp objs Hn. unfold parsed_records.
  rewrite cat_loop_eqn, read_lines_eqn.
  destruct (feof fp) eqn:Hf.
  - simpl. now rewrite app_nil_r.
  - destruct (fgets 200 fp) as [[line|] fp'] eqn:Hg.
    + assert (Hlt : (file_measure fp' < n)%nat)
        by (subst n; eapply fgets_decreases; eassumption).
      simpl filter. destruct (is_comment line); simpl.
      * apply (IH _ Hlt fp' objs eq_refl).
      * rewrite (IH _ Hlt fp' _ eq_refl). unfold scan_line, parsed_records.
        destruct (quality_cut (parse_line line)).
        -- now rewrite <- app_assoc.
        -- reflexivity.
    + assert (Hlt : (file_measure fp' < n)%nat)
        by (subst n; eapply fgets_decreases; eassumption).
      apply (IH _ Hlt fp' objs eq_refl).
Qed.

(** ** The cut and the comparison *)

Lemma thirty_positive : F32.positive (F32.of_int 30) = true.
Proof. reflexivity. Qed.

Lemma quality_cut_flux one :
  quality_cut one = true -> F32.positive (info one NDX_FLUX) = true.
Proof.
  unfold quality_cut, F32.gt. intros H.
  apply andb_true_iff in H. destruct H as [H _].
  apply andb_true_iff in H. destruct H as [H _].
  exact (above_positive _ _ thirty_positive H).
Qed.

Lemma less_brightness_order (l : objptrvec) :
  Forall bright l -> strict_weak_order_on less_brightness l.
Proof.
  intros Hl. rewrite Forall_forall in Hl.
  unfold strict_weak_order_on, less_brightness, F32.gt.
  split; [|split].
  - intros a _. apply SFltb_irrefl.
  - intros a b c Ha Hb Hc H1 H2.
    apply (SFltb_trans _ (info b NDX_FLUX)); auto; apply Hl; assumption.
  - intros a b c Ha Hb Hc H1 H2 H3 H4. split.
    + apply (SFltb_negtrans _ (info b NDX_FLUX)); auto; apply Hl; assumption.
    + apply (SFltb_negtrans _ (info b NDX_FLUX)); auto; apply Hl; assumption.
Qed.

Lemma filter_cut_bright (l : objptrvec) : Forall bright (filter quality_cut l).
Proof.
  apply Forall_forall. intros one H. apply filter_In in H.
  apply quality_cut_flux. tauto.
Qed.

(** What [load_cat] returns for a file that opens, [objs] being empty on
    entry as it is in [main]. *)
Lemma load_cat_opened filepath bytes :
  readable filepath = Some bytes ->
  load_cat filepath [] =
  (true, std_sort less_brightness
           (filter quality_cut (parsed_records (mk_FILE bytes false)))).
Proof.
  intros H. unfold load_cat, fopen. rewrite H, cat_loop_pushes. reflexivity.
Qed.

Lemma load_cat_permutation filepath bytes :
  readable filepath = Some bytes ->
  Permutation (filter quality_cut (parsed_records (mk_FILE bytes false)))
              (snd (load_cat filepath [])).
Proof.
  intros H. rewrite (load_cat_opened _ _ H). simpl.
  apply std_sort_permutation, less_brightness_order, filter_cut_bright.
Qed.

Lemma load_cat_sorted filepath bytes :
  readable filepath = Some bytes ->
  sorted_by less_brightness (snd (load_cat filepath [])).
Proof.
  intros H. rewrite (load_cat_opened _ _ H). simpl.
  apply std_sort_sorted, less_brightness_order, filter_cut_bright.
Qed.

Lemma quality_cut_iff one :
  quality_cut one = true <->
  F32.gt (info one NDX_FLUX) (F32.of_int 30) = true /\
  F32.gt (info one NDX_FWHM) (F32.of_int 1) = true /\
  F32.lt (info one NDX_ELON) (F32.of_int 2) = true.
Proof. unfold quality_cut. rewrite !andb_true_iff. tauto. Qed.


Lemma zero_fwhm_rejected one :
  info one NDX_FWHM = F32.zero -> quality_cut one = false.
Proof.
  unfold quality_cut. intros ->.
  change (F32.gt F32.zero (F32.of_int 1)) with false.
  now rewrite andb_false_r.
Qed.

Lemma info_set_info_other one next v ndx :
  (next < ndx < NDX_NUM)%nat -> info (set_info one next v) ndx = info one ndx.
Proof.
  unfold NDX_NUM, NDX_ELON. intros H.
  destruct next as [|[|[|[|next]]]]; destruct ndx as [|[|[|[|[|ndx]]]]];
    try lia; reflexivity.
Qed.

(** The filling loop leaves alone the fields past the tokens it is given. *)
Lemma fill_untouched tokens : forall next one ndx,
  (next + List.length tokens <= ndx < NDX_NUM)%nat ->
  info (fill next tokens one) ndx = info one ndx.
Proof.
  induction tokens as [|token rest IH]; intros next one ndx H; simpl.
  - reflexivity.
  - simpl in H. destruct (next <? NDX_NUM)%nat; [|reflexivity].
    rewrite IH by lia. apply info_set_info_other. lia.
Qed.

Lemma parse_line_short line ndx :
  (List.length (strtok line seps) <= ndx < NDX_NUM)%nat ->
  info (parse_line line) ndx = F32.zero.
Proof.
  intros H. unfold parse_line. rewrite fill_untouched by (simpl; lia).
  unfold NDX_NUM, NDX_ELON in H.
  destruct ndx as [|[|[|[|[|ndx]]]]]; try lia; reflexivity.
Qed.

Lemma fill_four t0 t1 t2 t3 rest :
  fill 0 (t0 :: t1 :: t2 :: t3 :: rest) make_shared =
  mk_aobject (atof t0) (atof t1) (atof t2) (atof t3)
             (match rest with [] => F32.zero | t4 :: _ => atof t4 end).
Proof. destruct rest as [|t4 [|t5 rest]]; reflexivity. Qed.

Lemma StronglySorted_adjacent {A : Type} (R : A -> A -> Prop) (l : list A) :
  StronglySorted R l ->
  forall i a b, nth_error l i = Some a -> nth_error l (S i) = Some b -> R a b.
Proof.
  induction 1 as [|x l Hs IH Hx]; intros i a b Ha Hb.
  - destruct i; discriminate.
  - destruct i as [|i].
    + simpl in Ha, Hb. inversion Ha; subst. rewrite Forall_forall in Hx.
      apply Hx. destruct l; [discriminate|]. simpl in Hb. inversion Hb. now left.
    + simpl in Ha. change (nth_error l (S i) = Some b) in Hb. eauto.
Qed.

(** The list that [load_cat] returns is in descending order of flux. *)
Lemma load_cat_descending filepath bytes :
  readable filepath = Some bytes ->
  forall i a b,
    nth_error (snd (load_cat filepath [])) i = Some a ->
    nth_error (snd (load_cat filepath [])) (S i) = Some b ->
    F32.ge (info a NDX_FLUX) (info b NDX_FLUX) = true.
Proof.
  intros H i a b Ha Hb.
  pose proof (load_cat_sorted _ _ H) as Hs.
  pose proof (load_cat_permutation _ _ H) as Hp.
  assert (Hbright : forall one, In one (snd (load_cat filepath [])) -> bright one).
  { intros one Hin. apply (Permutation_in _ (Permutation_sym Hp)) in Hin.
    pose proof (filter_cut_bright (parsed_records (mk_FILE bytes false))) as Hf.
    rewrite Forall_forall in Hf. auto. }
  pose proof (StronglySorted_adjacent _ _ Hs i a b Ha Hb) as Hab.
  unfold less_brightness, F32.gt in Hab. unfold F32.ge.
  apply SFltb_false_leb; [apply Hbright | apply Hbright | exact Hab];
    eapply nth_error_In; eassumption.
Qed.

(** C1: a parsed record is in the list that [load_cat] returns if and only
    if its flux is above 30.0, its FWHM above 1.0 and its elongation below
    2.0; the fields are those read from the first five tokens of its line,
    a missing field being 0.0. The list is a rearrangement of the parsed
    records that pass, so a record is kept as often as it was parsed. *)
Theorem load_cat_keeps_the_cut filepath bytes :
  readable filepath = Some bytes ->
  fst (load_cat filepath []) = true /\
  (forall one,
     In one (snd (load_cat filepath [])) <->
     In one (parsed_records (mk_FILE bytes false)) /\
     F32.gt (info one NDX_FLUX) (F32.of_int 30) = true /\
     F32.gt (info one NDX_FWHM) (F32.of_int 1) = true /\
     F32.lt (info one NDX_ELON) (F32.of_int 2) = true) /\
  Permutation (filter quality_cut (parsed_records (mk_FILE bytes false)))
              (snd (load_cat filepath [])).
Proof.
  intros H. pose proof (load_cat_permutation _ _ H) as Hp.
  split; [|split].
  - now rewrite (load_cat_opened _ _ H).
  - intros one. rewrite <- quality_cut_iff, <- filter_In. split; intros Hin.
    + exact (Permutation_in _ (Permutation_sym Hp) Hin).
    + exact (Permutation_in _ Hp Hin).
  - exact Hp.
Qed.


(** C9, as the program has it: [load_cat] fails exactly when the file
    cannot be opened for reading; when it opens and each line that [fgets]
    delivers is a comment or has fewer than four tokens, [load_cat]
    succeeds with an empty list. *)
Theorem load_cat_fails_only_on_open :
  (forall filepath objs,
     fst (load_cat filepath objs) = false <-> readable filepath = None) /\
  (forall filepath bytes,
     readable filepath = Some bytes ->
     (forall line, In line (read_lines (mk_FILE bytes false)) ->
        is_comment line = true \/ (List.length (strtok line seps) < 4)%nat) ->
     load_cat filepath [] = (true, [])).
Proof.
  split.
  - intros filepath objs. unfold load_cat, fopen.
    destruct (readable filepath); simpl; split; congruence.
  - intros filepath bytes H Hlines.
    pose proof (load_cat_permutation _ _ H) as Hp.
    assert (Hnil : filter quality_cut (parsed_records (mk_FILE bytes false)) = []).
    { destruct (filter quality_cut (parsed_records (mk_FILE bytes false)))
        as [|one l] eqn:E; [reflexivity | exfalso].
      assert (Hin : In one (filter quality_cut (parsed_records (mk_FILE bytes false))))
        by (rewrite E; now left).
      apply filter_In in Hin. destruct Hin as [Hin Hq].
      unfold parsed_records in Hin. apply in_map_iff in Hin.
      destruct Hin as [line [Hone Hline]]. apply filter_In in Hline.
      destruct Hline as [Hline Hc]. apply negb_true_iff in Hc.
      destruct (Hlines _ Hline) as [Hc' | Hlen]; [congruence|].
      rewrite <- Hone, zero_fwhm_rejected in Hq; [discriminate|].
      apply parse_line_short. unfold NDX_FWHM, NDX_NUM, NDX_ELON. lia. }
    rewrite (load_cat_opened _ _ H) in Hp |- *. simpl in Hp.
    rewrite Hnil in Hp |- *. apply Permutation_nil in Hp. now rewrite Hp.
Qed.

(** ** The driver *)

Lemma created_files_output_axy refs filepath :
  created_files (output_axy refs filepath) = [filepath].
Proof.
  unfold output_axy.
  destruct (path_exists filepath); destruct (fits_status _ =? 0); reflexivity.
Qed.

(** C7, as the program has it: after a catalogue that loads, with fewer
    than 5 references selected the driver prints "not found enough
    reference stars" and creates no file; with 5 or more it calls
    [output_axy] once, on the path of the catalogue with its extension
    replaced by ".axy", and that is the one file created. *)
Theorem main_reference_threshold argv bytes refs :
  (4 <= List.length argv)%nat ->
  readable (nth 1 argv "") = Some bytes ->
  select_refstar (snd (load_cat (nth 1 argv "") []))
                 (atoi (nth 2 argv "")) (atoi (nth 3 argv "")) [] = Some refs ->
  ((List.length refs < 5)%nat ->
   main argv = Some ([Stdout "not found enough reference stars"], 0) /\
   created_files [Stdout "not found enough reference stars"] = []) /\
  ((5 <= List.length refs)%nat ->
   main argv =
   Some (output_axy refs (replace_extension (nth 1 argv "") ".axy"), 0) /\
   created_files (output_axy refs (replace_extension (nth 1 argv "") ".axy")) =
   [replace_extension (nth 1 argv "") ".axy"]).
Proof.
  intros Hargc Hopen Hsel.
  assert (Hmain : main argv =
            if (5 <=? List.length refs)%nat
            then Some (output_axy refs (replace_extension (nth 1 argv "") ".axy"), 0)
            else Some ([Stdout "not found enough reference stars"], 0)).
  { unfold main. destruct (List.length argv <? 4)%nat eqn:E;
      [apply Nat.ltb_lt in E; lia|].
    rewrite (load_cat_opened _ _ Hopen) in Hsel |- *. simpl in Hsel.
    rewrite Hsel. reflexivity. }
  split; intros Hlen; rewrite Hmain.
  - destruct (5 <=? List.length refs)%nat eqn:E; [apply Nat.leb_le in E; lia|].
    split; reflexivity.
  - destruct (5 <=? List.length refs)%nat eqn:E; [|apply Nat.leb_gt in E; lia].
    split; [reflexivity | apply created_files_output_axy].
Qed.

Unset Default Proof Using.

End Cat2axy.

(** ** Undefined behaviour and [int] arithmetic *)

Lemma bind_some {A B : Type} (m : option A) (k : A -> option B) (b : B) :
  bind m k = Some b <-> exists a, m = Some a /\ k a = Some b.
Proof.
  destruct m as [a|]; simpl; split.
  - intros H. exists a. auto.
  - intros [a' [E H]]. inversion E. subst. exact H.
  - discriminate.
  - intros [a' [E _]]. discriminate.
Qed.

Lemma in_range_iff z :
  CInt.in_range z = true <-> CInt.INT_MIN <= z <= CInt.INT_MAX.
Proof. unfold CInt.in_range. rewrite andb_true_iff, !Z.leb_le. tauto. Qed.

Lemma checked_some z v :
  CInt.checked z = Some v <-> v = z /\ CInt.INT_MIN <= z <= CInt.INT_MAX.
Proof.
  unfold CInt.checked. destruct (CInt.in_range z) eqn:E.
  - apply in_range_iff in E. split.
    + intros H. inversion H. subst. split; [reflexivity | exact E].
    + intros [-> _]. reflexivity.
  - split; [discriminate|]. intros [_ H]. apply in_range_iff in H. congruence.
Qed.

Lemma checked_in z :
  CInt.INT_MIN <= z <= CInt.INT_MAX -> CInt.checked z = Some z.
Proof. intros H. apply checked_some. auto. Qed.

(** ** The grid *)

Lemma grid_count_some d n :
  grid_count d = Some n <->
  n = Z.quot (d + GRID - 1) GRID /\
  CInt.INT_MIN <= d + GRID <= CInt.INT_MAX /\
  CInt.INT_MIN <= d + GRID - 1.
Proof.
  unfold grid_count, CInt.add, CInt.sub, CInt.div. split.
  - intros H. apply bind_some in H. destruct H as [a [Ha H]].
    apply bind_some in H. destruct H as [b [Hb H]].
    apply checked_some in Ha. apply checked_some in Hb.
    inversion H. destruct Ha as [-> Ha]. destruct Hb as [-> Hb].
    repeat split; lia.
  - intros [-> [H1 H2]]. rewrite (checked_in (d + GRID)) by lia. simpl.
    rewrite (checked_in (d + GRID - 1)) by (unfold CInt.INT_MAX in *; lia).
    reflexivity.
Qed.

(** For a dimension that is not negative, the count is the ceiling of the
    dimension over the cell size. *)
Lemma grid_count_ceil d :
  0 <= d <= CInt.INT_MAX - GRID -> grid_count d = Some (ceil_div d GRID).
Proof.
  intros H. apply grid_count_some. unfold CInt.INT_MIN, CInt.INT_MAX, GRID in *.
  split; [|lia]. unfold ceil_div. rewrite Z.quot_div_nonneg by lia.
  Z.div_mod_to_equations. lia.
Qed.

Lemma grid_origin_mod d : 0 <= d -> grid_origin d = (d mod GRID) / 2.
Proof.
  intros H. unfold grid_origin, CInt.div, CInt.rem, GRID.
  rewrite Z.rem_mod_nonneg by lia.
  apply Z.quot_div_nonneg; [|lia]. apply Z.mod_pos_bound. lia.
Qed.

(** The general case of [select_refstar] is the loop over the candidates,
    started with all counters at zero. *)
Lemma select_refstar_general objs w h refs nw nh :
  grid_count w = Some nw -> grid_count h = Some nh ->
  4 <= nw * nh <= CInt.INT_MAX ->
  select_refstar objs w h refs =
  (st <- select_loop nw nh (grid_origin w) (grid_origin h)
           (repeat 0 (Z.to_nat (nw * nh)), refs) objs ;;
   Some (snd st)).
Proof.
  intros Hw Hh Hn. unfold select_refstar. rewrite Hw, Hh. simpl.
  unfold CInt.mul. rewrite checked_in by (unfold CInt.INT_MIN; lia). simpl.
  destruct (nw * nh <? 4) eqn:E; [apply Z.ltb_lt in E; lia | reflexivity].
Qed.

(** C5: when the grid of the image has fewer than four cells, the count
    along each axis being the ceiling of the dimension over the cell size of
    128, [select_refstar] returns the candidates it is given, all of them
    and in their order; the dimensions are those of an image, not negative
    and small enough for [w + GRID] and [h + GRID] to be [int]s. A 100 by
    100 image is such a case. *)
Theorem select_refstar_small_image objs :
  (forall w h,
     0 <= w <= CInt.INT_MAX - GRID -> 0 <= h <= CInt.INT_MAX - GRID ->
     ceil_div w GRID * ceil_div h GRID < 4 ->
     select_refstar objs w h [] = Some objs) /\
  select_refstar objs 100 100 [] = Some objs.
Proof.
  assert (H : forall w h,
     0 <= w <= CInt.INT_MAX - GRID -> 0 <= h <= CInt.INT_MAX - GRID ->
     ceil_div w GRID * ceil_div h GRID < 4 ->
     select_refstar objs w h [] = Some objs).
  { intros w h Hw Hh Hn. unfold select_refstar.
    rewrite (grid_count_ceil _ Hw), (grid_count_ceil _ Hh). simpl.
    assert (0 <= ceil_div w GRID /\ 0 <= ceil_div h GRID) as [H1 H2].
    { unfold ceil_div, GRID. split; Z.div_mod_to_equations; lia. }
    unfold CInt.mul. rewrite checked_in
      by (unfold CInt.INT_MIN, CInt.INT_MAX; nia). simpl.
    destruct (_ <? 4) eqn:E; [reflexivity | apply Z.ltb_ge in E; lia]. }
  split; [exact H|]. apply H; unfold CInt.INT_MAX, GRID; try lia. reflexivity.
Qed.

Lemma to_int_trunc q i : F32.to_int q = Some i -> F32.trunc q = Some i.
Proof.
  unfold F32.to_int. intros H. apply bind_some in H. destruct H as [z [Hz H]].
  apply checked_some in H. destruct H as [-> _]. exact Hz.
Qed.

Lemma trunc_floor q i :
  F32.trunc q = Some i -> F32.lt q F32.zero = false -> F32.floor q = Some i.
Proof.
  destruct q as [s|s| |[|] m e]; simpl; try discriminate; auto.
Qed.

Lemma shiftl_floor_and_trunc (m : positive) (e : Z) :
  0 <= Z.shiftl (Zpos m) e /\
  (Z.shiftl (Zneg m) e = - Z.shiftl (Zpos m) e \/
   Z.shiftl (Zneg m) e = - Z.shiftl (Zpos m) e - 1) /\
  (Z.shiftl (Zpos m) e = 0 -> Z.shiftl (Zneg m) e = -1).
Proof.
  destruct e as [|p|p].
  - rewrite !Z.shiftl_0_r. lia.
  - rewrite !Z.shiftl_mul_pow2 by lia.
    assert (0 < 2 ^ Zpos p) by (apply Z.pow_pos_nonneg; lia). nia.
  - change (Zneg p) with (- Zpos p).
    rewrite !Z.shiftl_opp_r, !Z.shiftr_div_pow2 by lia.
    assert (0 < 2 ^ Zpos p) by (apply Z.pow_pos_nonneg; lia).
    Z.div_mod_to_equations. nia.
Qed.

(** Rounding toward zero against the floor and the ceiling: the floor of a
    value that is not negative; the ceiling of a negative value, which is
    the floor or one more, and is 0 over a floor of -1 for the negative
    values above -1. *)
Lemma trunc_floor_ceil q i :
  F32.trunc q = Some i ->
  (F32.lt q F32.zero = false -> F32.floor q = Some i) /\
  (F32.lt q F32.zero = true ->
   F32.ceil q = Some i /\ i <= 0 /\
   (F32.floor q = Some i \/ F32.floor q = Some (i - 1)) /\
   (i = 0 -> F32.floor q = Some (-1))).
Proof.
  intros H. split; [now apply trunc_floor|].
  destruct q as [s|s| |[|] m e]; simpl in *; try discriminate.
  intros _. inversion H; subst i.
  destruct (shiftl_floor_and_trunc m e) as [H0 [Hf Hz]].
  repeat split.
  - lia.
  - destruct Hf as [-> | ->]; [left | right]; reflexivity.
  - intros Hi. f_equal. apply Hz. lia.
Qed.

(** The coordinate computed by the program, written with the operations of
    binary32: the subtraction and the division round to nearest, the
    conversion drops the fractional part and is defined for an integral
    part in the range of [int]. *)
Lemma grid_coord_some v origin i :
  grid_coord v origin = Some i <->
  F32.trunc (SFdiv 24 128
               (SFsub 24 128 v (binary_normalize 24 128 origin 0 false))
               (binary_normalize 24 128 128 0 false)) = Some i /\
  CInt.INT_MIN <= i <= CInt.INT_MAX.
Proof.
  unfold grid_coord, F32.to_int.
  change (coord_quotient v origin)
    with (SFdiv 24 128
            (SFsub 24 128 v (binary_normalize 24 128 origin 0 false))
            (binary_normalize 24 128 128 0 false)).
  rewrite bind_some. split.
  - intros [z [Hz Hc]]. apply checked_some in Hc. destruct Hc as [-> Hr].
    split; assumption.
  - intros [Hz Hr]. exists i. split; [exact Hz|]. now apply checked_in.
Qed.

(** C6, as the program has it: in the general case the origin of the grid
    is [((w % GRID) / 2, (h % GRID) / 2)], which for dimensions that are not
    negative is [(w mod 128) / 2] and [(h mod 128) / 2]; the cell
    coordinates of a candidate are the binary32 quotients [(x - x0) / 128]
    and [(y - y0) / 128] converted to [int], that is rounded toward zero:
    the floor of a quotient that is not negative, the ceiling of a negative
    one, which is its floor or one more, and 0 where the floor is -1 for a
    negative quotient above -1; a candidate with [i == nw] or [j == nh]
    leaves the counters and the references as they are. *)
Theorem cell_coordinates_truncate nw nh :
  (forall objs w h refs,
     grid_count w = Some nw -> grid_count h = Some nh ->
     4 <= nw * nh <= CInt.INT_MAX ->
     select_refstar objs w h refs =
     (st <- select_loop nw nh (grid_origin w) (grid_origin h)
              (repeat 0 (Z.to_nat (nw * nh)), refs) objs ;;
      Some (snd st)) /\
     (0 <= w -> grid_origin w = (w mod 128) / 2) /\
     (0 <= h -> grid_origin h = (h mod 128) / 2)) /\
  (forall x0 y0 it i j,
     let qx := SFdiv 24 128
                 (SFsub 24 128 (info it NDX_X) (binary_normalize 24 128 x0 0 false))
                 (binary_normalize 24 128 128 0 false) in
     let qy := SFdiv 24 128
                 (SFsub 24 128 (info it NDX_Y) (binary_normalize 24 128 y0 0 false))
                 (binary_normalize 24 128 128 0 false) in
     (cell_of x0 y0 it = Some (i, j) <->
      (F32.trunc qx = Some i /\ CInt.INT_MIN <= i <= CInt.INT_MAX) /\
      (F32.trunc qy = Some j /\ CInt.INT_MIN <= j <= CInt.INT_MAX)) /\
     (cell_of x0 y0 it = Some (i, j) ->
      (SFltb qx (S754_zero false) = false -> F32.floor qx = Some i) /\
      (SFltb qx (S754_zero false) = true ->
       F32.ceil qx = Some i /\ i <= 0 /\
       (F32.floor qx = Some i \/ F32.floor qx = Some (i - 1)) /\
       (i = 0 -> F32.floor qx = Some (-1))) /\
      (SFltb qy (S754_zero false) = false -> F32.floor qy = Some j) /\
      (SFltb qy (S754_zero false) = true ->
       F32.ceil qy = Some j /\ j <= 0 /\
       (F32.floor qy = Some j \/ F32.floor qy = Some (j - 1)) /\
       (j = 0 -> F32.floor qy = Some (-1))) /\
      ((i = nw \/ j = nh) ->
       forall st, select_step nw nh x0 y0 st it = Some st))).
Proof.
  split.
  - intros objs w h refs Hw Hh Hn. split; [|split].
    + now apply select_refstar_general.
    + apply grid_origin_mod.
    + apply grid_origin_mod.
  - intros x0 y0 it i j qx qy.
    assert (Hcell : cell_of x0 y0 it = Some (i, j) <->
                    (F32.trunc qx = Some i /\ CInt.INT_MIN <= i <= CInt.INT_MAX) /\
                    (F32.trunc qy = Some j /\ CInt.INT_MIN <= j <= CInt.INT_MAX)).
    { unfold cell_of. rewrite bind_some. split.
      - intros [i' [Hi H]]. apply bind_some in H. destruct H as [j' [Hj H]].
        inversion H; subst i' j'.
        apply grid_coord_some in Hi. apply grid_coord_some in Hj. now split.
      - intros [Hi Hj]. apply grid_coord_some in Hi. apply grid_coord_some in Hj.
        exists i. split; [exact Hi|]. now rewrite Hj. }
    split; [exact Hcell|]. intros Hc.
    destruct (proj1 Hcell Hc) as [[Hi _] [Hj _]].
    destruct (trunc_floor_ceil _ _ Hi) as [Hix Hix'].
    destruct (trunc_floor_ceil _ _ Hj) as [Hjy Hjy'].
    repeat split; try (apply Hix; assumption); try (apply Hix'; assumption);
      try (apply Hjy; assumption); try (apply Hjy'; assumption).
    intros Hd st. unfold select_step. rewrite Hc. simpl.
    destruct Hd as [-> | ->]; rewrite Z.eqb_refl; [reflexivity|].
    now rewrite orb_true_r.
Qed.

(** ** The counters *)

Lemma list_set_length map : forall n v,
  List.length (list_set map n v) = List.length map.
Proof.
  induction map as [|c rest IH]; intros [|n] v; simpl; auto.
Qed.

Lemma list_set_same map : forall n v,
  (n < List.length map)%nat -> nth_error (list_set map n v) n = Some v.
Proof.
  induction map as [|c rest IH]; intros [|n] v H; simpl in *; try lia; auto.
  apply IH. lia.
Qed.

Lemma list_set_other map : forall n m v,
  n <> m -> nth_error (list_set map n v) m = nth_error map m.
Proof.
  induction map as [|c rest IH]; intros [|n] [|m] v H; simpl; auto; try congruence.
Qed.

Lemma map_get_some map k n :
  map_get map k = Some n ->
  0 <= k /\ (Z.to_nat k < List.length map)%nat.
Proof.
  unfold map_get. destruct (0 <=? k) eqn:E; [|discriminate].
  apply Z.leb_le in E. intros H. split; [exact E|].
  apply nth_error_Some. congruence.
Qed.

Lemma map_get_in_range map k :
  0 <= k < Z.of_nat (List.length map) -> exists n, map_get map k = Some n.
Proof.
  intros H. unfold map_get.
  destruct (0 <=? k) eqn:E; [|apply Z.leb_gt in E; lia].
  destruct (nth_error map (Z.to_nat k)) as [n|] eqn:En; [eauto|].
  apply nth_error_None in En. lia.
Qed.

Lemma map_get_set_same map k n v :
  map_get map k = Some n -> map_get (map_set map k v) k = Some v.
Proof.
  intros H. destruct (map_get_some _ _ _ H) as [H0 Hlt].
  unfold map_get, map_set. destruct (0 <=? k) eqn:E; [|apply Z.leb_gt in E; lia].
  now apply list_set_same.
Qed.

Lemma map_get_set_other map k k' v :
  0 <= k -> k <> k' -> map_get (map_set map k v) k' = map_get map k'.
Proof.
  intros H0 Hne. unfold map_get, map_set.
  destruct (0 <=? k') eqn:E; [|reflexivity]. apply Z.leb_le in E.
  apply list_set_other. lia.
Qed.

Lemma map_get_repeat size k n :
  map_get (repeat 0 size) k = Some n -> n = 0.
Proof.
  unfold map_get. destruct (0 <=? k); [|discriminate]. intros H.
  apply nth_error_In in H. now apply repeat_spec in H.
Qed.

Lemma hits_app nw nh x0 y0 k refs it :
  hits nw nh x0 y0 k (refs ++ [it]) =
  (hits nw nh x0 y0 k refs + (if maps_to nw nh x0 y0 k it then 1 else 0))%nat.
Proof.
  unfold hits. rewrite filter_app, length_app. simpl.
  destruct (maps_to nw nh x0 y0 k it); reflexivity.
Qed.

(** What one turn of the loop does: the state is left as it is, or the
    candidate is pushed, which happens only when the counter it tests is at
    most 5, and that counter is then one more. *)
Lemma select_step_cases nw nh x0 y0 st it st' :
  select_step nw nh x0 y0 st it = Some st' ->
  st' = st \/
  exists k n,
    counter_index nw nh x0 y0 it = Some k /\
    map_get (fst st) k = Some n /\ n <= 5 /\
    st' = (map_set (fst st) k (n + 1), snd st ++ [it]) /\
    map_get (fst st') k = Some (n + 1).
Proof.
  unfold select_step, counter_index. intros H.
  apply bind_some in H. destruct H as [[i j] [Hc H]]. rewrite Hc.
  destruct ((i =? nw) || (j =? nh)).
  - left. congruence.
  - apply bind_some in H. destruct H as [k [Hk H]].
    apply bind_some in H. destruct H as [n [Hn H]].
    apply checked_some in Hk. destruct Hk as [-> _].
    destruct (n <=? 5) eqn:E.
    + right. exists (i * j), n. apply Z.leb_le in E. inversion H; subst st'.
      repeat split; auto. simpl. eapply map_get_set_same; eassumption.
    + left. congruence.
Qed.

(** The turn of the loop is defined for a candidate whose access is. *)
Lemma select_step_defined nw nh x0 y0 st it :
  Z.of_nat (List.length (fst st)) <= CInt.INT_MAX ->
  access_defined nw nh x0 y0 (Z.of_nat (List.length (fst st))) it = true ->
  exists st',
    select_step nw nh x0 y0 st it = Some st' /\
    List.length (fst st') = List.length (fst st).
Proof.
  unfold access_defined, select_step. intros Hsize H.
  destruct (cell_of x0 y0 it) as [[i j]|]; [|discriminate]. simpl.
  destruct ((i =? nw) || (j =? nh)); [eauto|]. simpl in H.
  apply andb_true_iff in H. destruct H as [H1 H2].
  apply Z.leb_le in H1. apply Z.ltb_lt in H2.
  unfold CInt.mul. rewrite checked_in by (unfold CInt.INT_MIN; lia). simpl.
  destruct (map_get_in_range (fst st) (i * j)) as [n Hn]; [lia|].
  rewrite Hn. simpl. destruct (n <=? 5); eexists; split; try reflexivity.
  simpl. unfold map_set. apply list_set_length.
Qed.

Lemma select_step_agree nw nh x0 y0 st it st' :
  counters_agree nw nh x0 y0 st ->
  select_step nw nh x0 y0 st it = Some st' ->
  counters_agree nw nh x0 y0 st'.
Proof.
  intros Hinv H. apply select_step_cases in H.
  destruct H as [-> | [k [n [Hk [Hn [Hle [-> Hn']]]]]]]; [exact Hinv|].
  intros k'. simpl fst. simpl snd. rewrite hits_app. unfold maps_to. rewrite Hk.
  destruct (map_get_some _ _ _ Hn) as [H0 _].
  destruct (Z.eq_dec k k') as [<- | Hne].
  - rewrite (map_get_set_same _ _ _ _ Hn), Z.eqb_refl.
    specialize (Hinv k). rewrite Hn in Hinv. lia.
  - rewrite (map_get_set_other _ _ _ _ H0 Hne).
    apply Z.eqb_neq in Hne. rewrite Hne, Nat.add_0_r. apply Hinv.
Qed.

Lemma select_loop_agree nw nh x0 y0 objs : forall st,
  Z.of_nat (List.length (fst st)) <= CInt.INT_MAX ->
  counters_agree nw nh x0 y0 st ->
  Forall (fun it => access_defined nw nh x0 y0
                      (Z.of_nat (List.length (fst st))) it = true) objs ->
  exists st',
    select_loop nw nh x0 y0 st objs = Some st' /\
    counters_agree nw nh x0 y0 st'.
Proof.
  induction objs as [|it rest IH]; intros st Hsize Hinv Hobjs; simpl.
  - eauto.
  - inversion Hobjs as [|? ? Hit Hrest]; subst.
    destruct (select_step_defined _ _ _ _ _ _ Hsize Hit) as [st1 [Hstep Hlen]].
    rewrite Hstep. simpl. apply IH.
    + now rewrite Hlen.
    + eapply select_step_agree; eassumption.
    + now rewrite Hlen.
Qed.

Lemma counters_agree_init nw nh x0 y0 size :
  counters_agree nw nh x0 y0 (repeat 0 size, []).
Proof.
  intros k. simpl. destruct (map_get (repeat 0 size) k) as [n|] eqn:E.
  - apply map_get_repeat in E. subst. unfold hits. simpl. lia.
  - reflexivity.
Qed.

(** C4: in the general case a candidate that is not discarded is pushed
    only if the counter at its index is at most 5, and the counter is then
    incremented; hence, over a run whose array accesses are all defined, at
    most 6 of the references map to any one counter. *)
Theorem per_counter_cap objs w h nw nh :
  grid_count w = Some nw -> grid_count h = Some nh ->
  4 <= nw * nh <= CInt.INT_MAX ->
  Forall (fun it => access_defined nw nh (grid_origin w) (grid_origin h)
                      (nw * nh) it = true) objs ->
  (forall st it st',
     select_step nw nh (grid_origin w) (grid_origin h) st it = Some st' ->
     st' = st \/
     exists k n,
       counter_index nw nh (grid_origin w) (grid_origin h) it = Some k /\
       map_get (fst st) k = Some n /\ n <= 5 /\
       st' = (map_set (fst st) k (n + 1), snd st ++ [it]) /\
       map_get (fst st') k = Some (n + 1)) /\
  exists refs,
    select_refstar objs w h [] = Some refs /\
    forall k, (hits nw nh (grid_origin w) (grid_origin h) k refs <= 6)%nat.
Proof.
  intros Hw Hh Hn Hobjs. split; [intros st it st'; apply select_step_cases|].
  rewrite (select_refstar_general _ _ _ _ _ _ Hw Hh Hn).
  assert (Hsize : Z.of_nat (List.length (repeat 0 (Z.to_nat (nw * nh)))) = nw * nh)
    by (rewrite repeat_length; lia).
  assert (Hrun : exists st',
            select_loop nw nh (grid_origin w) (grid_origin h)
              (repeat 0 (Z.to_nat (nw * nh)), []) objs = Some st' /\
            counters_agree nw nh (grid_origin w) (grid_origin h) st').
  { apply select_loop_agree; simpl fst.
    - rewrite Hsize. lia.
    - apply counters_agree_init.
    - rewrite Hsize. exact Hobjs. }
  destruct Hrun as [st' [Hloop Hinv]].
  exists (snd st'). split.
  { apply bind_some. exists st'. split; [exact Hloop | reflexivity]. }
  intros k. specialize (Hinv k).
  destruct (map_get (fst st') k); lia.
Qed.

(** C3: in the general case the counter of a candidate is the one at the
    product [i * j] of its cell coordinates, so two candidates whose
    products are equal test and increment the same counter: pushing the one
    adds one to the counter that the other tests. Distinct cells do share:
    all the cells with [i = 0], and the cells (1,2) and (2,1); on a 512 by
    512 image, after six candidates of the cell (1,2) a candidate of the
    cell (2,1) is refused, and after six of the cell (0,1) one of the cell
    (0,3) is. *)
Theorem cells_share_counters :
  (forall nw nh x0 y0 st a b ia ja ib jb,
     cell_of x0 y0 a = Some (ia, ja) -> cell_of x0 y0 b = Some (ib, jb) ->
     ia <> nw -> ja <> nh -> ib <> nw -> jb <> nh ->
     ia * ja = ib * jb ->
     counter_index nw nh x0 y0 a = counter_index nw nh x0 y0 b /\
     forall n,
       map_get (fst st) (ib * jb) = Some n -> n <= 5 ->
       ib * jb <= CInt.INT_MAX ->
       exists st',
         select_step nw nh x0 y0 st a = Some st' /\
         snd st' = snd st ++ [a] /\
         map_get (fst st') (ib * jb) = Some (n + 1)) /\
  (forall j j', 0 * j = 0 * j') /\
  (cell_of 0 0 (star 200 300) = Some (1, 2) /\
   cell_of 0 0 (star 300 200) = Some (2, 1) /\
   select_refstar (repeat (star 200 300) 6 ++ [star 300 200]) 512 512 [] =
   Some (repeat (star 200 300) 6)) /\
  (cell_of 0 0 (star 10 200) = Some (0, 1) /\
   cell_of 0 0 (star 10 400) = Some (0, 3) /\
   select_refstar (repeat (star 10 200) 6 ++ [star 10 400]) 512 512 [] =
   Some (repeat (star 10 200) 6)).
Proof.
  split; [|split; [|split]].
  - intros nw nh x0 y0 st a b ia ja ib jb Ha Hb Hia Hja Hib Hjb Heq.
    apply Z.eqb_neq in Hia, Hja, Hib, Hjb.
    split.
    + unfold counter_index. rewrite Ha, Hb, Hia, Hja, Hib, Hjb. simpl.
      now rewrite Heq.
    + intros n Hn Hle Hmax. unfold select_step. rewrite Ha. simpl.
      rewrite Hia, Hja. simpl. unfold CInt.mul. rewrite Heq.
      destruct (map_get_some _ _ _ Hn) as [H0 _].
      rewrite checked_in by (unfold CInt.INT_MIN; lia).
      simpl. rewrite Hn. simpl.
      destruct (n <=? 5) eqn:E; [|apply Z.leb_gt in E; lia].
      eexists. split; [reflexivity|]. split; [reflexivity|]. simpl.
      eapply map_get_set_same; eassumption.
  - intros j j'. reflexivity.
  - repeat split; vm_compute; reflexivity.
  - repeat split; vm_compute; reflexivity.
Qed.

(** ** The reference sorts meet the contract of [std::sort] *)

Section InsertionSorts.

Variable cmp : objptr -> objptr -> bool.
Variable L : objptrvec.
Hypothesis Hcmp : strict_weak_order_on cmp L.

Lemma cmp_asym a b : In a L -> In b L -> cmp a b = true -> cmp b a = false.
Proof.
  intros Ha Hb Hab. destruct Hcmp as [Hirr [Htr _]].
  destruct (cmp b a) eqn:E; [|reflexivity].
  rewrite <- (Hirr a Ha). symmetry. now apply (Htr a b a).
Qed.

Lemma cmp_negtrans a b c :
  In a L -> In b L -> In c L ->
  cmp a b = false -> cmp b c = false -> cmp a c = false.
Proof.
  intros Ha Hb Hc Hab Hbc. destruct Hcmp as [Hirr [Htr Heqv]].
  destruct (cmp a c) eqn:Hac; [|reflexivity].
  destruct (cmp b a) eqn:Hba.
  - rewrite <- Hbc. symmetry. now apply (Htr b a c).
  - destruct (cmp c b) eqn:Hcb.
    + rewrite <- Hab. symmetry. now apply (Htr a c b).
    + destruct (Heqv a b c Ha Hb Hc Hab Hba Hbc Hcb). congruence.
Qed.

Lemma insert_by_permutation x l : Permutation (x :: l) (insert_by cmp x l).
Proof.
  induction l as [|y rest IH]; simpl.
  - reflexivity.
  - destruct (cmp x y); [reflexivity|].
    rewrite perm_swap. now apply perm_skip.
Qed.

Lemma insert_front_by_permutation x l :
  Permutation (x :: l) (insert_front_by cmp x l).
Proof.
  induction l as [|y rest IH]; simpl.
  - reflexivity.
  - destruct (cmp y x); [|reflexivity].
    rewrite perm_swap. now apply perm_skip.
Qed.

Lemma insert_by_sorted x l :
  incl (x :: l) L -> sorted_by cmp l -> sorted_by cmp (insert_by cmp x l).
Proof.
  unfold sorted_by. induction l as [|y rest IH]; intros Hin Hs; simpl.
  - constructor; constructor.
  - inversion Hs as [|? ? Hs' Hy]; subst.
    assert (Hx : In x L) by (apply Hin; now left).
    assert (Hyl : In y L) by (apply Hin; right; now left).
    destruct (cmp x y) eqn:E.
    + constructor; [exact Hs|]. constructor; [now apply cmp_asym|].
      rewrite Forall_forall in Hy |- *. intros z Hz.
      assert (Hzl : In z L) by (apply Hin; right; now right).
      destruct (cmp z x) eqn:Ezx; [|reflexivity].
      rewrite <- (Hy z Hz). symmetry. destruct Hcmp as [_ [Htr _]].
      now apply (Htr z x y).
    + constructor.
      * apply IH; [|exact Hs']. intros z [<-|Hz]; apply Hin; simpl; auto.
      * rewrite Forall_forall in Hy |- *. intros z Hz.
        apply (Permutation_in _ (Permutation_sym (insert_by_permutation x rest))) in Hz.
        destruct Hz as [<-|Hz]; auto.
Qed.

Lemma insert_front_by_sorted x l :
  incl (x :: l) L -> sorted_by cmp l -> sorted_by cmp (insert_front_by cmp x l).
Proof.
  unfold sorted_by. induction l as [|y rest IH]; intros Hin Hs; simpl.
  - constructor; constructor.
  - inversion Hs as [|? ? Hs' Hy]; subst.
    assert (Hx : In x L) by (apply Hin; now left).
    assert (Hyl : In y L) by (apply Hin; right; now left).
    destruct (cmp y x) eqn:E.
    + constructor.
      * apply IH; [|exact Hs']. intros z [<-|Hz]; apply Hin; simpl; auto.
      * rewrite Forall_forall in Hy |- *. intros z Hz.
        apply (Permutation_in _
                 (Permutation_sym (insert_front_by_permutation x rest))) in Hz.
        destruct Hz as [<-|Hz]; [now apply cmp_asym | auto].
    + constructor; [exact Hs|]. constructor; [exact E|].
      rewrite Forall_forall in Hy |- *. intros z Hz.
      assert (Hzl : In z L) by (apply Hin; right; now right).
      apply (cmp_negtrans z y x); auto.
Qed.

Lemma insertion_sort_permutation l : Permutation l (insertion_sort cmp l).
Proof.
  induction l as [|x rest IH]; simpl; [reflexivity|].
  rewrite <- insert_by_permutation. now apply perm_skip.
Qed.

Lemma insertion_sort_front_permutation l :
  Permutation l (insertion_sort_front cmp l).
Proof.
  induction l as [|x rest IH]; simpl; [reflexivity|].
  rewrite <- insert_front_by_permutation. now apply perm_skip.
Qed.

Lemma insertion_sort_sorted l :
  incl l L -> sorted_by cmp (insertion_sort cmp l).
Proof.
  induction l as [|x rest IH]; intros Hin; simpl.
  - constructor.
  - apply insert_by_sorted.
    + intros z [<-|Hz]; [apply Hin; now left|].
      apply Hin. right.
      exact (Permutation_in _ (Permutation_sym (insertion_sort_permutation rest)) Hz).
    + apply IH. intros z Hz. apply Hin. now right.
Qed.

Lemma insertion_sort_front_sorted l :
  incl l L -> sorted_by cmp (insertion_sort_front cmp l).
Proof.
  induction l as [|x rest IH]; intros Hin; simpl.
  - constructor.
  - apply insert_front_by_sorted.
    + intros z [<-|Hz]; [apply Hin; now left|].
      apply Hin. right.
      exact (Permutation_in _
               (Permutation_sym (insertion_sort_front_permutation rest)) Hz).
    + apply IH. intros z Hz. apply Hin. now right.
Qed.

End InsertionSorts.

#[local] Instance insertion_sorter : StdSort := {|
  std_sort := insertion_sort;
  std_sort_permutation := fun cmp l _ => insertion_sort_permutation cmp l;
  std_sort_sorted := fun cmp l H => insertion_sort_sorted cmp l H l (incl_refl l)
|}.

#[local] Instance front_sorter : StdSort := {|
  std_sort := insertion_sort_front;
  std_sort_permutation := fun cmp l _ => insertion_sort_front_permutation cmp l;
  std_sort_sorted :=
    fun cmp l H => insertion_sort_front_sorted cmp l H l (incl_refl l)
|}.

(** ** The order of the list that [load_cat] returns *)

(** C2: the list that [load_cat] returns is in descending order of flux,
    each record having a flux at least that of the next, whatever sort
    meets the contract of [std::sort]; the contract leaves the order of
    records of equal flux open, and two sorts that meet it return the two
    records of a tie in the two orders. *)
Theorem load_cat_descending_flux :
  (forall atof (sorter : StdSort) readable filepath bytes,
     readable filepath = Some bytes ->
     forall i a b,
       nth_error (snd (load_cat atof readable filepath [])) i = Some a ->
       nth_error (snd (load_cat atof readable filepath [])) (S i) = Some b ->
       F32.ge (info a NDX_FLUX) (info b NDX_FLUX) = true) /\
  (snd (load_cat atof_int (sorter := insertion_sorter)
          (one_file "ties.cat" ties_cat) "ties.cat" []) =
   [record 8 8 90 3 1; record 7 7 90 3 1] /\
   snd (load_cat atof_int (sorter := front_sorter)
          (one_file "ties.cat" ties_cat) "ties.cat" []) =
   [record 7 7 90 3 1; record 8 8 90 3 1]).
Proof.
  split.
  - intros atof sorter readable filepath bytes H.
    exact (load_cat_descending atof readable filepath bytes H).
  - split; vm_compute; reflexivity.
Qed.

(** * The program on the sample inputs *)

(** ** Instances of the properties *)

Lemma load_cat_keeps_the_cut_sample :
  one_file "sample.cat" sample_cat "sample.cat" = Some sample_cat /\
  (fst (load_cat atof_int (sorter := insertion_sorter)
          (one_file "sample.cat" sample_cat) "sample.cat" []) = true /\
   (forall one,
      In one (snd (load_cat atof_int (sorter := insertion_sorter)
                     (one_file "sample.cat" sample_cat) "sample.cat" [])) <->
      In one (parsed_records atof_int (mk_FILE sample_cat false)) /\
      F32.gt (info one NDX_FLUX) (F32.of_int 30) = true /\
      F32.gt (info one NDX_FWHM) (F32.of_int 1) = true /\
      F32.lt (info one NDX_ELON) (F32.of_int 2) = true) /\
   Permutation
     (filter quality_cut (parsed_records atof_int (mk_FILE sample_cat false)))
     (snd (load_cat atof_int (sorter := insertion_sorter)
             (one_file "sample.cat" sample_cat) "sample.cat" []))).
Proof.
  split; [reflexivity|].
  apply (load_cat_keeps_the_cut atof_int (sorter := insertion_sorter)
           (one_file "sample.cat" sample_cat) "sample.cat" sample_cat).
  reflexivity.
Defined.

Lemma load_cat_descending_flux_sample :
  one_file "sample.cat" sample_cat "sample.cat" = Some sample_cat /\
  forall i a b,
    nth_error (snd (load_cat atof_int (sorter := insertion_sorter)
                      (one_file "sample.cat" sample_cat) "sample.cat" [])) i
    = Some a ->
    nth_error (snd (load_cat atof_int (sorter := insertion_sorter)
                      (one_file "sample.cat" sample_cat) "sample.cat" [])) (S i)
    = Some b ->
    F32.ge (info a NDX_FLUX) (info b NDX_FLUX) = true.
Proof.
  split; [reflexivity|].
  apply (proj1 load_cat_descending_flux atof_int insertion_sorter
           (one_file "sample.cat" sample_cat) "sample.cat" sample_cat).
  reflexivity.
Defined.


Lemma load_cat_fails_only_on_open_sample :
  one_file "c.cat" comments_only_cat "c.cat" = Some comments_only_cat /\
  load_cat atof_int (sorter := insertion_sorter)
    (one_file "c.cat" comments_only_cat) "c.cat" [] = (true, []).
Proof.
  split; [reflexivity|].
  apply (proj2 (load_cat_fails_only_on_open atof_int (sorter := insertion_sorter)
                  (one_file "c.cat" comments_only_cat))
           "c.cat" comments_only_cat).
  - reflexivity.
  - intros line H. vm_compute in H.
    destruct H as [<-|[<-|[<-|[]]]].
    + left. reflexivity.
    + right. vm_compute. lia.
    + left. reflexivity.
Defined.

Lemma select_refstar_small_image_sample :
  (0 <= 300 <= CInt.INT_MAX - GRID /\ 0 <= 100 <= CInt.INT_MAX - GRID /\
   ceil_div 300 GRID * ceil_div 100 GRID < 4) /\
  select_refstar [star 10 10; star 290 90; star 11 11] 300 100 [] =
  Some [star 10 10; star 290 90; star 11 11].
Proof.
  assert (H : 0 <= 300 <= CInt.INT_MAX - GRID /\
              0 <= 100 <= CInt.INT_MAX - GRID /\
              ceil_div 300 GRID * ceil_div 100 GRID < 4)
    by (vm_compute; intuition discriminate).
  split; [exact H|].
  apply (proj1 (select_refstar_small_image [star 10 10; star 290 90; star 11 11]));
    apply H.
Defined.

Lemma cell_coordinates_truncate_sample :
  cell_of 44 44 (star 20 300) = Some (0, 2) /\
  SFltb (SFdiv 24 128
           (SFsub 24 128 (info (star 20 300) NDX_X)
              (binary_normalize 24 128 44 0 false))
           (binary_normalize 24 128 128 0 false)) (S754_zero false) = true /\
  F32.floor (SFdiv 24 128
               (SFsub 24 128 (info (star 20 300) NDX_X)
                  (binary_normalize 24 128 44 0 false))
               (binary_normalize 24 128 128 0 false)) = Some (-1).
Proof.
  assert (H : cell_of 44 44 (star 20 300) = Some (0, 2)) by reflexivity.
  assert (Hs : SFltb (SFdiv 24 128
                        (SFsub 24 128 (info (star 20 300) NDX_X)
                           (binary_normalize 24 128 44 0 false))
                        (binary_normalize 24 128 128 0 false)) (S754_zero false)
               = true) by reflexivity.
  split; [exact H | split; [exact Hs|]].
  exact (proj2 (proj2 (proj2
           (proj1 (proj2 (proj2 (proj2 (cell_coordinates_truncate 5 5) 44 44
                                   (star 20 300) 0 2) H)) Hs))) eq_refl).
Defined.

Lemma per_counter_cap_sample :
  (grid_count 512 = Some 4 /\ 4 <= 4 * 4 <= CInt.INT_MAX /\
   Forall (fun it => access_defined 4 4 (grid_origin 512) (grid_origin 512)
                       (4 * 4) it = true)
          (repeat (star 200 300) 8 ++ [star 300 200])) /\
  exists refs,
    select_refstar (repeat (star 200 300) 8 ++ [star 300 200]) 512 512 []
    = Some refs /\
    forall k, (hits 4 4 (grid_origin 512) (grid_origin 512) k refs <= 6)%nat.
Proof.
  assert (Hg : grid_count 512 = Some 4) by reflexivity.
  assert (Hn : 4 <= 4 * 4 <= CInt.INT_MAX) by (vm_compute; intuition discriminate).
  assert (Hd : Forall (fun it => access_defined 4 4 (grid_origin 512)
                                   (grid_origin 512) (4 * 4) it = true)
                      (repeat (star 200 300) 8 ++ [star 300 200]))
    by (repeat (constructor; [reflexivity|]); constructor).
  split; [auto|].
  exact (proj2 (per_counter_cap _ 512 512 4 4 Hg Hg Hn Hd)).
Defined.

Lemma cells_share_counters_sample :
  (cell_of 0 0 (star 200 300) = Some (1, 2) /\
   cell_of 0 0 (star 300 200) = Some (2, 1) /\
   map_get (repeat 0 16) (2 * 1) = Some 0) /\
  exists st',
    select_step 4 4 0 0 (repeat 0 16, []) (star 200 300) = Some st' /\
    snd st' = [] ++ [star 200 300] /\
    map_get (fst st') (2 * 1) = Some (0 + 1).
Proof.
  assert (Ha : cell_of 0 0 (star 200 300) = Some (1, 2)) by reflexivity.
  assert (Hb : cell_of 0 0 (star 300 200) = Some (2, 1)) by reflexivity.
  assert (Hm : map_get (fst (repeat 0 16, @nil objptr)) (2 * 1) = Some 0)
    by reflexivity.
  split; [auto|].
  apply (proj2 (proj1 cells_share_counters 4 4 0 0 (repeat 0 16, [])
                  (star 200 300) (star 300 200) 1 2 2 1 Ha Hb
                  ltac:(discriminate) ltac:(discriminate)
                  ltac:(discriminate) ltac:(discriminate) eq_refl) 0 Hm);
    vm_compute; discriminate.
Defined.

Lemma main_reference_threshold_sample :
  ((4 <= List.length sample_argv)%nat /\
   one_file "sample.cat" sample_cat (nth 1 sample_argv "") = Some sample_cat /\
   select_refstar
     (snd (load_cat atof_int (sorter := insertion_sorter)
             (one_file "sample.cat" sample_cat) (nth 1 sample_argv "") []))
     (atoi_dec (nth 2 sample_argv "")) (atoi_dec (nth 3 sample_argv "")) []
   = Some sample_refs /\
   (5 <= List.length sample_refs)%nat) /\
  main atof_int (sorter := insertion_sorter) (one_file "sample.cat" sample_cat)
    (fun _ => false) (fun _ => 0) (fun _ => "") atoi_dec replace_extension_name
    sample_argv =
  Some (output_axy (fun _ => false) (fun _ => 0) (fun _ => "") sample_refs
          "sample.axy", 0) /\
  created_files
    (output_axy (fun _ => false) (fun _ => 0) (fun _ => "") sample_refs
       "sample.axy") = ["sample.axy"].
Proof.
  assert (Hc : (4 <= List.length sample_argv)%nat) by (simpl; lia).
  assert (Ho : one_file "sample.cat" sample_cat (nth 1 sample_argv "")
               = Some sample_cat) by reflexivity.
  assert (Hs : select_refstar
     (snd (load_cat atof_int (sorter := insertion_sorter)
             (one_file "sample.cat" sample_cat) (nth 1 sample_argv "") []))
     (atoi_dec (nth 2 sample_argv "")) (atoi_dec (nth 3 sample_argv "")) []
   = Some sample_refs) by (vm_compute; reflexivity).
  assert (Hl : (5 <= List.length sample_refs)%nat) by (simpl; lia).
  split; [auto|].
  exact (proj2 (main_reference_threshold atof_int (sorter := insertion_sorter)
                  (one_file "sample.cat" sample_cat)
                  (fun _ => false) (fun _ => 0) (fun _ => "")
                  atoi_dec replace_extension_name
                  sample_argv sample_cat sample_refs Hc Ho Hs) Hl).
Defined.

(** ** Runs at the edges of the properties *)

(** A candidate in the left and top margin of a 600 by 600 image, whose
    grid starts at 44: the quotients [(10 - 44) / 128] are negative, the
    program puts the candidate in the cell (0, 0) and selects it, and the
    floor of the quotients is -1. *)
Lemma margin_candidate_is_not_floored :
  grid_origin 600 = 44 /\
  cell_of 44 44 (star 10 10) = Some (0, 0) /\
  floor_coord (info (star 10 10) NDX_X) 44 = Some (-1) /\
  floor_coord (info (star 10 10) NDX_Y) 44 = Some (-1) /\
  grid_coord (info (star 10 10) NDX_X) 44
    <> floor_coord (info (star 10 10) NDX_X) 44 /\
  select_refstar [star 10 10] 600 600 [] = Some [star 10 10].
Proof.
  repeat split; try reflexivity. vm_compute. discriminate.
Qed.

(** A run on an empty catalogue: no reference is selected, and the line
    printed is not "not enough reference stars". *)
Lemma driver_prints_another_message :
  main atof_int (sorter := insertion_sorter) (one_file "empty.cat" "")
    (fun _ => false) (fun _ => 0) (fun _ => "") atoi_dec replace_extension_name
    ["cat2axy"; "empty.cat"; "512"; "512"] =
  Some ([Stdout "not found enough reference stars"], 0) /\
  ~ In (Stdout "not enough reference stars")
       [Stdout "not found enough reference stars"].
Proof.
  split; [reflexivity|]. intros [H|[]]. discriminate H.
Qed.

(** A catalogue whose only line has four tokens: the line gives a record,
    with an elongation of 0.0 that no token gave, and the record is in the
    list. *)
Lemma four_token_line_is_kept :
  read_lines (mk_FILE four_tokens_cat false) = [four_tokens_cat] /\
  strtok four_tokens_cat seps = ["10"; "20"; "50"; text_line "3"] /\
  load_cat atof_int (sorter := insertion_sorter)
    (one_file "short.cat" four_tokens_cat) "short.cat" [] =
  (true, [mk_aobject (F32.of_int 10) (F32.of_int 20) (F32.of_int 50)
            (F32.of_int 3) F32.zero]).
Proof.
  repeat split; vm_compute; reflexivity.
Qed.

(** A catalogue of a comment and a line of four tokens: each line is a
    comment or has fewer than five tokens, and the list is not empty. *)
Lemma short_lines_catalogue_is_not_empty :
  read_lines (mk_FILE comment_and_short_cat false) =
  [text_line "# x y flux fwhm"; text_line "12 34 56 7"] /\
  is_comment (text_line "# x y flux fwhm") = true /\
  (List.length (strtok (text_line "12 34 56 7") seps) < 5)%nat /\
  load_cat atof_int (sorter := insertion_sorter)
    (one_file "short.cat" comment_and_short_cat) "short.cat" [] =
  (true, [mk_aobject (F32.of_int 12) (F32.of_int 34) (F32.of_int 56)
            (F32.of_int 7) F32.zero]).
Proof.
  split; [vm_compute; reflexivity|].
  split; [reflexivity|].
  split; [vm_compute; lia|].
  vm_compute. reflexivity.
Qed.

(** * Further properties *)

(** ** Notions used to state them *)

(** The bytes of a sequence of lines. *)
Fixpoint join (ls : list string) : string :=
  match ls with
  | [] => EmptyString
  | l :: rest => (l ++ join rest)%string
  end.

Fixpoint has_newline (s : string) : bool :=
  match s with
  | EmptyString => false
  | String c rest => Ascii.eqb c LF || has_newline rest
  end.

(** A string without its separator bytes. *)
Fixpoint remove_seps (seps : string) (s : string) : string :=
  match s with
  | EmptyString => EmptyString
  | String c rest =>
      if is_sep seps c then remove_seps seps rest
      else String c (remove_seps seps rest)
  end.

(** [sub] is [l] with some of its elements left out. *)
Inductive subseq {A : Type} : list A -> list A -> Prop :=
| subseq_nil : subseq [] []
| subseq_skip x sub l : subseq sub l -> subseq sub (x :: l)
| subseq_keep x sub l : subseq sub l -> subseq (x :: sub) (x :: l).

(** The sum of the counters. *)
Fixpoint counters_total (map : list Z) : Z :=
  match map with
  | [] => 0
  | c :: rest => c + counters_total rest
  end.

(** The numbers of rows that the tables of a run are created with. *)
Fixpoint declared_rows (trace : list event) : list nat :=
  match trace with
  | [] => []
  | FitsInsertBtbl naxis2 _ _ _ :: rest => naxis2 :: declared_rows rest
  | _ :: rest => declared_rows rest
  end.

(** ** Strings *)

Lemma append_nil_r (s : string) : (s ++ "")%string = s.
Proof. induction s as [|c s IH]; simpl; congruence. Qed.

Lemma append_assoc (a b c : string) :
  ((a ++ b) ++ c)%string = (a ++ (b ++ c))%string.
Proof. induction a as [|x a IH]; simpl; congruence. Qed.

Lemma length_append (a b : string) :
  String.length (a ++ b) = (String.length a + String.length b)%nat.
Proof. induction a as [|x a IH]; simpl; congruence. Qed.

(** ** What [fgets] delivers *)

Lemma fgets_scan_parts n : forall s l r e,
  fgets_scan n s = (l, r, e) ->
  s = (l ++ r)%string /\
  (String.length l <= n)%nat /\
  (e = true -> r = EmptyString) /\
  (forall p q, l = (p ++ String LF q)%string -> q = EmptyString).
Proof.
  induction n as [|n IH]; intros s l r e H; simpl in H.
  - inversion H; subst. repeat split; auto.
    + discriminate.
    + intros [|c p] q Hq; discriminate.
  - destruct s as [|c s'].
    + inversion H; subst. repeat split; auto. simpl; lia.
      intros [|c p] q Hq; discriminate.
    + destruct (Ascii.eqb c LF) eqn:Ec.
      * inversion H; subst. repeat split; auto.
        -- simpl; lia.
        -- discriminate.
        -- intros [|c' [|c'' p]] q Hq; simpl in Hq; inversion Hq; reflexivity.
      * destruct (fgets_scan n s') as [[l' r'] e'] eqn:E.
        inversion H; subst. destruct (IH _ _ _ _ E) as [Hs [Hl [He Hq]]].
        repeat split.
        -- simpl. now rewrite <- Hs.
        -- simpl; lia.
        -- exact He.
        -- intros [|c' p] q Hpq; simpl in Hpq; inversion Hpq; subst.
           ++ now rewrite Ascii.eqb_refl in Ec.
           ++ eapply Hq. reflexivity.
Qed.

(** A stream that has met the end of its file has nothing left to read. *)
Definition drained (fp : FILE) : Prop :=
  at_eof fp = true -> unread fp = EmptyString.

Lemma fgets_parts fp res fp' :
  drained fp -> fgets 200 fp = (res, fp') ->
  drained fp' /\
  match res with
  | Some l =>
      unread fp = (l ++ unread fp')%string /\
      (1 <= String.length l <= 199)%nat /\
      (forall p q, l = (p ++ String LF q)%string -> q = EmptyString)
  | None => unread fp = unread fp'
  end.
Proof.
  unfold drained, fgets. intros Hd H.
  destruct (fgets_scan (200 - 1) (unread fp)) as [[l r] e] eqn:E.
  apply fgets_scan_parts in E. destruct E as [Hs [Hl [He Hq]]].
  inversion H; subst; clear H. simpl. split.
  - intros Heof. apply orb_true_iff in Heof. destruct Heof as [Heof|Heof]; auto.
    specialize (Hd Heof). rewrite Hd in Hs. destruct l; [|discriminate].
    simpl in Hs. congruence.
  - destruct l as [|c l]; [exact Hs|].
    repeat split; auto; simpl in *; lia.
Qed.

Lemma read_lines_parts : forall n fp,
  file_measure fp = n -> drained fp ->
  join (read_lines fp) = unread fp /\
  Forall (fun l => (1 <= String.length l <= 199)%nat /\
                   forall p q, l = (p ++ String LF q)%string -> q = EmptyString)
         (read_lines fp).
Proof.
  induction n as [n IH] using (well_founded_induction Wf_nat.lt_wf).
  intros fp Hn Hd. rewrite read_lines_eqn.
  destruct (feof fp) eqn:Hf.
  - split; [|constructor]. simpl. symmetry. now apply Hd.
  - destruct (fgets 200 fp) as [res fp'] eqn:Hg.
    assert (Hlt : (file_measure fp' < n)%nat)
      by (subst n; eapply fgets_decreases; eassumption).
    destruct (fgets_parts _ _ _ Hd Hg) as [Hd' Hres].
    destruct (IH _ Hlt fp' eq_refl Hd') as [Hj Hall].
    destruct res as [l|].
    + destruct Hres as [Hu [Hl Hq]]. split.
      * simpl. now rewrite Hj.
      * constructor; auto.
    + split; [congruence | exact Hall].
Qed.

(** X1: the lines that the reading loop gets from [fgets] are the file cut
    in pieces: put end to end they are the bytes of the file, each has
    between 1 and 199 bytes, and a newline is the last byte of the line it
    is in. *)
Theorem read_lines_partition bytes :
  join (read_lines (mk_FILE bytes false)) = bytes /\
  Forall (fun l => (1 <= String.length l <= 199)%nat /\
                   forall p q, l = (p ++ String LF q)%string -> q = EmptyString)
         (read_lines (mk_FILE bytes false)).
Proof.
  apply (read_lines_parts _ (mk_FILE bytes false) eq_refl).
  unfold drained. simpl. discriminate.
Qed.

Lemma fgets_scan_line l : forall n rest,
  has_newline l = false -> (String.length l < n)%nat ->
  fgets_scan n (l ++ String LF rest) = ((l ++ String LF "")%string, rest, false).
Proof.
  induction l as [|c l IH]; intros n rest Hnl Hlen; simpl in *.
  - destruct n; [lia|]. simpl. reflexivity.
  - destruct n; [lia|]. simpl. apply orb_false_iff in Hnl.
    destruct Hnl as [Hc Hnl]. rewrite Hc, IH by (auto; lia). reflexivity.
Qed.

Lemma fgets_scan_full c : forall rest,
  has_newline c = false ->
  fgets_scan (String.length c) (c ++ rest) = (c, rest, false).
Proof.
  induction c as [|x c IH]; intros rest Hnl; simpl in *.
  - reflexivity.
  - apply orb_false_iff in Hnl. destruct Hnl as [Hx Hnl].
    rewrite Hx, IH by auto. reflexivity.
Qed.

Lemma read_lines_empty : read_lines (mk_FILE "" false) = [].
Proof. reflexivity. Qed.

Lemma read_lines_line l rest :
  has_newline l = false -> (String.length l <= 198)%nat ->
  read_lines (mk_FILE (l ++ String LF rest) false) =
  (l ++ String LF "")%string :: read_lines (mk_FILE rest false).
Proof.
  intros Hnl Hlen. rewrite read_lines_eqn. unfold feof, fgets. simpl at_eof.
  simpl unread. change (200 - 1)%nat with 199%nat.
  rewrite fgets_scan_line by (auto; lia).
  destruct l; reflexivity.
Qed.

Lemma read_lines_full c rest :
  has_newline c = false -> String.length c = 199%nat ->
  read_lines (mk_FILE (c ++ rest) false) = c :: read_lines (mk_FILE rest false).
Proof.
  intros Hnl Hlen. rewrite read_lines_eqn. unfold feof, fgets. simpl at_eof.
  simpl unread. change (200 - 1)%nat with 199%nat.
  rewrite <- Hlen, fgets_scan_full by auto.
  destruct c; [discriminate | reflexivity].
Qed.

(** X2: when each line of the file has at most 198 bytes before its
    newline, the reading loop gets the lines of the file, one by one and
    with their newline. *)
Theorem read_lines_short_lines (ls : list string) :
  Forall (fun l => has_newline l = false /\ (String.length l <= 198)%nat) ls ->
  read_lines (mk_FILE (join (map text_line ls)) false) = map text_line ls.
Proof.
  induction 1 as [|l rest [Hnl Hlen] Hrest IH]; simpl.
  - apply read_lines_empty.
  - unfold text_line at 1. rewrite append_assoc. simpl.
    rewrite read_lines_line by assumption. now rewrite IH.
Qed.

(** ** What [strtok] delivers *)

Lemma join_app (a b : list string) : join (a ++ b) = (join a ++ join b)%string.
Proof.
  induction a as [|x a IH]; simpl; [reflexivity|].
  now rewrite IH, append_assoc.
Qed.

Lemma join_flush tok : join (flush tok) = tok.
Proof. destruct tok; simpl; [reflexivity|]. now rewrite append_nil_r. Qed.

Lemma remove_seps_app seps (a b : string) :
  remove_seps seps (a ++ b) = (remove_seps seps a ++ remove_seps seps b)%string.
Proof.
  induction a as [|c a IH]; simpl; [reflexivity|].
  destruct (is_sep seps c); simpl; congruence.
Qed.

Definition clean_token (seps tok : string) : Prop :=
  tok <> EmptyString /\ remove_seps seps tok = tok.

Lemma flush_clean seps tok :
  remove_seps seps tok = tok -> Forall (clean_token seps) (flush tok).
Proof.
  intros H. destruct tok; simpl; constructor; [|constructor].
  split; [discriminate | exact H].
Qed.

Lemma strtok_from_parts seps s : forall tok,
  remove_seps seps tok = tok ->
  join (strtok_from seps tok s) = (tok ++ remove_seps seps s)%string /\
  Forall (clean_token seps) (strtok_from seps tok s).
Proof.
  induction s as [|c rest IH]; intros tok Htok; simpl.
  - split; [|now apply flush_clean]. now rewrite join_flush, append_nil_r.
  - destruct (is_sep seps c) eqn:Ec.
    + destruct (IH EmptyString eq_refl) as [Hj Hf]. split.
      * now rewrite join_app, join_flush, Hj.
      * apply Forall_app. split; [now apply flush_clean | exact Hf].
    + assert (Htok' : remove_seps seps (tok ++ String c "") = (tok ++ String c "")%string).
      { rewrite remove_seps_app, Htok. simpl. now rewrite Ec. }
      destruct (IH _ Htok') as [Hj Hf]. split; [|exact Hf].
      rewrite Hj, append_assoc. reflexivity.
Qed.

(** X3: the tokens that [strtok] returns for a line are, put end to end,
    the bytes of the line before its first NUL with the separator bytes
    left out; no token is empty and no token holds a separator byte. *)
Theorem strtok_tokens line seps :
  join (strtok line seps) = remove_seps seps (c_str line) /\
  Forall (fun tok => tok <> EmptyString /\ remove_seps seps tok = tok)
         (strtok line seps).
Proof.
  unfold strtok. destruct (strtok_from_parts seps (c_str line) "" eq_refl) as [Hj Hf].
  split; [exact Hj | exact Hf].
Qed.

(** ** The selection loop *)

Lemma subseq_refl {A : Type} (l : list A) : subseq l l.
Proof. induction l; constructor; assumption. Qed.

Lemma subseq_nil_l {A : Type} (l : list A) : subseq [] l.
Proof. induction l; constructor; assumption. Qed.

Lemma subseq_In {A : Type} (sub l : list A) :
  subseq sub l -> forall x, In x sub -> In x l.
Proof.
  induction 1; intros y Hy; simpl in *; auto.
  destruct Hy; auto.
Qed.

Lemma subseq_sorted {A : Type} (R : A -> A -> Prop) (sub l : list A) :
  subseq sub l -> StronglySorted R l -> StronglySorted R sub.
Proof.
  induction 1 as [|x sub l Hs IH|x sub l Hs IH]; intros Hl.
  - constructor.
  - inversion Hl; subst. auto.
  - inversion Hl as [|? ? Hl' Hx]; subst. constructor; [auto|].
    rewrite Forall_forall in Hx |- *. intros y Hy. apply Hx.
    eapply subseq_In; eassumption.
Qed.

Lemma select_step_refs nw nh x0 y0 st it st' :
  select_step nw nh x0 y0 st it = Some st' ->
  List.length (fst st') = List.length (fst st) /\
  (snd st' = snd st \/ snd st' = snd st ++ [it]).
Proof.
  intros H. apply select_step_cases in H.
  destruct H as [-> | [k [n [_ [_ [_ [-> _]]]]]]]; [auto|].
  simpl. split; [apply list_set_length | now right].
Qed.

Lemma select_loop_subseq nw nh x0 y0 objs : forall st st',
  select_loop nw nh x0 y0 st objs = Some st' ->
  List.length (fst st') = List.length (fst st) /\
  exists sub, snd st' = snd st ++ sub /\ subseq sub objs.
Proof.
  induction objs as [|it rest IH]; intros st st' H; simpl in H.
  - inversion H; subst. split; [reflexivity|]. exists []. split.
    + now rewrite app_nil_r.
    + constructor.
  - apply bind_some in H. destruct H as [st1 [Hstep Hloop]].
    destruct (select_step_refs _ _ _ _ _ _ _ Hstep) as [Hlen Hrefs].
    destruct (IH _ _ Hloop) as [Hlen' [sub [Hsub Hs]]].
    split; [congruence|].
    destruct Hrefs as [E|E]; rewrite E in Hsub.
    + exists sub. split; [exact Hsub | now constructor].
    + exists (it :: sub). split; [now rewrite Hsub, <- app_assoc | now constructor].
Qed.

Lemma subseq_length {A : Type} (sub l : list A) :
  subseq sub l -> (List.length sub <= List.length l)%nat.
Proof. induction 1; simpl; lia. Qed.

Lemma select_refstar_pushes objs w h refs out :
  select_refstar objs w h refs = Some out ->
  exists sub, out = refs ++ sub /\ subseq sub objs.
Proof.
  unfold select_refstar. intros H.
  apply bind_some in H. destruct H as [nw [_ H]].
  apply bind_some in H. destruct H as [nh [_ H]].
  apply bind_some in H. destruct H as [n [_ H]].
  destruct (n <? 4).
  - inversion H. exists objs. split; [reflexivity | apply subseq_refl].
  - apply bind_some in H. destruct H as [st [Hloop H]]. inversion H.
    destruct (select_loop_subseq _ _ _ _ _ _ _ Hloop) as [_ Hsub]. exact Hsub.
Qed.

(** X4: whenever [select_refstar] returns, the vector [refs] holds what it
    held on entry followed by candidates taken from [objs] in the order of
    [objs], each at most as often as it is there; it has grown by at most
    the number of candidates. *)
Theorem select_refstar_subsequence objs w h refs out :
  select_refstar objs w h refs = Some out ->
  (exists sub, out = refs ++ sub /\ subseq sub objs) /\
  (forall one, In one out -> In one refs \/ In one objs) /\
  (List.length refs <= List.length out <= List.length refs + List.length objs)%nat.
Proof.
  intros H. destruct (select_refstar_pushes _ _ _ _ _ H) as [sub [-> Hsub]].
  split; [eauto|]. split.
  - intros one Hin. apply in_app_or in Hin. destruct Hin as [Hin|Hin]; auto.
    right. eapply subseq_In; eassumption.
  - rewrite length_app. apply subseq_length in Hsub. lia.
Qed.

Lemma counters_total_set map : forall n old v,
  nth_error map n = Some old ->
  counters_total (list_set map n v) = counters_total map - old + v.
Proof.
  induction map as [|c rest IH]; intros [|n] old v H; simpl in *; try discriminate.
  - inversion H. lia.
  - rewrite (IH _ _ _ H). lia.
Qed.

Lemma capped_set map : forall n v,
  Forall (fun c => c <= 6) map -> v <= 6 ->
  Forall (fun c => c <= 6) (list_set map n v).
Proof.
  induction map as [|c rest IH]; intros [|n] v Hm Hv; simpl; auto;
    inversion Hm; subst; constructor; auto.
Qed.

Lemma capped_total map :
  Forall (fun c => c <= 6) map ->
  counters_total map <= 6 * Z.of_nat (List.length map).
Proof. induction 1; simpl List.length; simpl counters_total; lia. Qed.

Lemma counters_total_repeat n : counters_total (repeat 0 n) = 0.
Proof. induction n; simpl; lia. Qed.

Lemma capped_repeat n : Forall (fun c => c <= 6) (repeat 0 n).
Proof. induction n; simpl; constructor; auto; lia. Qed.

(** The counters count the pushes: their sum grows with the number of
    references, and none exceeds 6. *)
Definition counters_count (pushed : Z) (st : select_state) : Prop :=
  counters_total (fst st) = Z.of_nat (List.length (snd st)) - pushed /\
  Forall (fun c => c <= 6) (fst st).

Lemma select_step_count nw nh x0 y0 base st it st' :
  counters_count base st ->
  select_step nw nh x0 y0 st it = Some st' ->
  counters_count base st'.
Proof.
  intros [Ht Hc] H. apply select_step_cases in H.
  destruct H as [-> | [k [n [_ [Hn [Hle [-> _]]]]]]]; [split; assumption|].
  unfold map_get in Hn. destruct (0 <=? k); [|discriminate].
  split; simpl.
  - unfold map_set. rewrite (counters_total_set _ _ _ _ Hn), Ht, length_app.
    simpl. lia.
  - apply capped_set; [exact Hc | lia].
Qed.

Lemma select_loop_count nw nh x0 y0 base objs : forall st st',
  counters_count base st ->
  select_loop nw nh x0 y0 st objs = Some st' ->
  counters_count base st'.
Proof.
  induction objs as [|it rest IH]; intros st st' Hc H; simpl in H.
  - inversion H; subst. exact Hc.
  - apply bind_some in H. destruct H as [st1 [Hstep Hloop]].
    eapply IH; [|exact Hloop]. eapply select_step_count; eassumption.
Qed.

(** X5: in the general case, started with no reference, [select_refstar]
    returns at most 6 references for each counter of the array: at most
    [6 * nw * nh] in all. *)
Theorem select_refstar_total_bound objs w h nw nh out :
  grid_count w = Some nw -> grid_count h = Some nh ->
  4 <= nw * nh <= CInt.INT_MAX ->
  select_refstar objs w h [] = Some out ->
  Z.of_nat (List.length out) <= 6 * (nw * nh).
Proof.
  intros Hw Hh Hn H.
  rewrite (select_refstar_general _ _ _ _ _ _ Hw Hh Hn) in H.
  apply bind_some in H. destruct H as [st [Hloop H]]. inversion H; subst out.
  assert (Hinit : counters_count 0 (repeat 0 (Z.to_nat (nw * nh)), @nil objptr)).
  { split; simpl; [now rewrite counters_total_repeat | apply capped_repeat]. }
  destruct (select_loop_count _ _ _ _ _ _ _ _ Hinit Hloop) as [Ht Hc].
  destruct (select_loop_subseq _ _ _ _ _ _ _ Hloop) as [Hlen _].
  apply capped_total in Hc. simpl in Hlen. rewrite repeat_length in Hlen.
  lia.
Qed.

Lemma select_step_some_defined nw nh x0 y0 st it st' :
  select_step nw nh x0 y0 st it = Some st' ->
  access_defined nw nh x0 y0 (Z.of_nat (List.length (fst st))) it = true.
Proof.
  unfold select_step, access_defined. intros H.
  apply bind_some in H. destruct H as [[i j] [Hc H]]. rewrite Hc.
  destruct ((i =? nw) || (j =? nh)); [reflexivity|]. simpl.
  apply bind_some in H. destruct H as [k [Hk H]].
  apply bind_some in H. destruct H as [n [Hn _]].
  apply checked_some in Hk. destruct Hk as [-> _].
  destruct (map_get_some _ _ _ Hn) as [H0 Hlt].
  apply andb_true_iff. split; [apply Z.leb_le | apply Z.ltb_lt]; lia.
Qed.

Lemma select_loop_defined_iff nw nh x0 y0 objs : forall st,
  Z.of_nat (List.length (fst st)) <= CInt.INT_MAX ->
  (select_loop nw nh x0 y0 st objs <> None <->
   Forall (fun it => access_defined nw nh x0 y0
                       (Z.of_nat (List.length (fst st))) it = true) objs).
Proof.
  induction objs as [|it rest IH]; intros st Hsize; simpl.
  - split; [constructor | discriminate].
  - split.
    + intros H. destruct (select_step nw nh x0 y0 st it) as [st1|] eqn:Hstep;
        [|now elim H].
      simpl in H.
      destruct (select_step_refs _ _ _ _ _ _ _ Hstep) as [Hlen _].
      constructor; [eapply select_step_some_defined; eassumption|].
      rewrite <- Hlen. apply IH; [now rewrite Hlen | exact H].
    + intros H. inversion H as [|? ? Hit Hrest]; subst.
      destruct (select_step_defined _ _ _ _ _ _ Hsize Hit) as [st1 [Hstep Hlen]].
      rewrite Hstep. simpl. apply IH; now rewrite Hlen.
Qed.

(** X6: in the general case [select_refstar] has a defined behaviour
    exactly when each candidate has cell coordinates that are [int]s and,
    unless it is discarded on the boundary, a product [i * j] that indexes
    the array of [nw * nh] counters; one candidate whose product is
    negative or not below [nw * nh] makes the run read outside the
    array. *)
Theorem select_refstar_defined_iff objs w h refs nw nh :
  grid_count w = Some nw -> grid_count h = Some nh ->
  4 <= nw * nh <= CInt.INT_MAX ->
  (select_refstar objs w h refs <> None <->
   Forall (fun it => access_defined nw nh (grid_origin w) (grid_origin h)
                       (nw * nh) it = true) objs).
Proof.
  intros Hw Hh Hn.
  rewrite (select_refstar_general _ _ _ _ _ _ Hw Hh Hn).
  assert (Hsize : Z.of_nat (List.length (repeat 0 (Z.to_nat (nw * nh)))) = nw * nh)
    by (rewrite repeat_length; lia).
  pose proof (select_loop_defined_iff nw nh (grid_origin w) (grid_origin h) objs
                (repeat 0 (Z.to_nat (nw * nh)), refs)) as Hiff.
  simpl fst in Hiff. rewrite Hsize in Hiff. specialize (Hiff (proj2 Hn)).
  rewrite <- Hiff.
  destruct (select_loop nw nh (grid_origin w) (grid_origin h)
              (repeat 0 (Z.to_nat (nw * nh)), refs) objs); simpl;
    split; congruence.
Qed.

Definition nonfinite (v : float) : Prop :=
  v = S754_nan \/ exists s, v = S754_infinity s.

Lemma grid_coord_nonfinite v origin : nonfinite v -> grid_coord v origin = None.
Proof.
  unfold grid_coord, coord_quotient, F32.sub, F32.div.
  intros [-> | [s ->]].
  - destruct (F32.of_int origin); reflexivity.
  - destruct (F32.of_int origin) as [[|]|[|]| |[|] m e]; destruct s; reflexivity.
Qed.

(** X7: a candidate whose x or y is a NaN or an infinity has no cell: the
    conversion of the quotient to [int] is undefined, in every state of the
    loop and for every grid. *)
Theorem nonfinite_coordinate_undefined nw nh x0 y0 st it :
  nonfinite (info it NDX_X) \/ nonfinite (info it NDX_Y) ->
  cell_of x0 y0 it = None /\ select_step nw nh x0 y0 st it = None.
Proof.
  intros H.
  assert (Hc : cell_of x0 y0 it = None).
  { unfold cell_of. destruct H as [H|H].
    - now rewrite (grid_coord_nonfinite _ _ H).
    - rewrite (grid_coord_nonfinite _ y0 H).
      destruct (grid_coord (info it NDX_X) x0); reflexivity. }
  split; [exact Hc|]. unfold select_step. now rewrite Hc.
Qed.

Lemma select_loop_agrees nw nh x0 y0 objs : forall st st',
  counters_agree nw nh x0 y0 st ->
  select_loop nw nh x0 y0 st objs = Some st' ->
  counters_agree nw nh x0 y0 st'.
Proof.
  induction objs as [|it rest IH]; intros st st' Hinv H; simpl in H.
  - inversion H; subst. exact Hinv.
  - apply bind_some in H. destruct H as [st1 [Hstep Hloop]].
    eapply IH; [|exact Hloop]. eapply select_step_agree; eassumption.
Qed.

(** X8: in the general case the candidates that come first are served
    first: after the candidates [before], a candidate that is not discarded
    is pushed if and only if fewer than 6 of the references selected from
    [before] map to its counter. *)
Theorem selection_serves_first_six nw nh x0 y0 size before it st st' k :
  select_loop nw nh x0 y0 (repeat 0 size, []) before = Some st ->
  counter_index nw nh x0 y0 it = Some k ->
  select_step nw nh x0 y0 st it = Some st' ->
  snd st' = if (hits nw nh x0 y0 k (snd st) <? 6)%nat
            then snd st ++ [it] else snd st.
Proof.
  intros Hloop Hk Hstep.
  pose proof (select_loop_agrees _ _ _ _ _ _ _
                (counters_agree_init nw nh x0 y0 size) Hloop) as Hinv.
  unfold select_step in Hstep. unfold counter_index in Hk.
  destruct (cell_of x0 y0 it) as [[i j]|]; [|discriminate]. simpl in Hstep.
  destruct ((i =? nw) || (j =? nh)); [discriminate|]. inversion Hk; subst k.
  apply bind_some in Hstep. destruct Hstep as [k [Hmul Hstep]].
  apply checked_some in Hmul. destruct Hmul as [-> _].
  apply bind_some in Hstep. destruct Hstep as [n [Hn Hstep]].
  specialize (Hinv (i * j)). rewrite Hn in Hinv. destruct Hinv as [Hhits _].
  destruct (n <=? 5) eqn:E; inversion Hstep; subst st'; simpl.
  - apply Z.leb_le in E.
    destruct (Nat.ltb_spec (hits nw nh x0 y0 (i * j) (snd st)) 6); [reflexivity | lia].
  - apply Z.leb_gt in E.
    destruct (Nat.ltb_spec (hits nw nh x0 y0 (i * j) (snd st)) 6); [lia | reflexivity].
Qed.

(** ** The stages together *)

(** A run of [n] spaces. *)
Fixpoint padding (n : nat) : string :=
  match n with
  | O => EmptyString
  | S n' => String SP (padding n')
  end.

Section Stages.

Set Default Proof Using "Type".

Variable atof : string -> float.
Context {sorter : StdSort}.
Variable readable : string -> option string.
Variable path_exists : string -> bool.
Variable fits_status : list event -> Z.
Variable ffgerr : Z -> string.
Variable atoi : string -> Z.
Variable replace_extension : string -> string -> string.

(** X9: a comment of 199 bytes or more is cut by the buffer of [fgets]:
    its first 199 bytes are skipped as a comment and what follows them is
    read as the next line, a data line unless it starts with ['#']. *)
Theorem long_comment_continuation c rest objs :
  is_comment c = true -> has_newline c = false -> String.length c = 199%nat ->
  cat_loop atof (mk_FILE (c ++ rest) false) objs =
  cat_loop atof (mk_FILE rest false) objs.
Proof.
  intros Hc Hnl Hlen. rewrite !cat_loop_pushes. unfold parsed_records.
  rewrite (read_lines_full _ _ Hnl Hlen). simpl. now rewrite Hc.
Qed.

(** X10: the tokens of a line after the fifth are ignored: the record of a
    line is made of its first five tokens. *)
Theorem tokens_after_five_ignored line t0 t1 t2 t3 t4 rest :
  strtok line seps = t0 :: t1 :: t2 :: t3 :: t4 :: rest ->
  parse_line atof line =
  mk_aobject (atof t0) (atof t1) (atof t2) (atof t3) (atof t4).
Proof.
  intros H. unfold parse_line. rewrite H. destruct rest; reflexivity.
Qed.

(** X11: the call of [std::sort] in [load_cat] meets the requirement of
    [std::sort]: on the records that the reading loop has kept,
    [less_brightness] is a strict weak ordering. *)
Theorem load_cat_sort_requirement bytes :
  strict_weak_order_on less_brightness (cat_loop atof (mk_FILE bytes false) []).
Proof.
  rewrite cat_loop_pushes. simpl.
  apply less_brightness_order, filter_cut_bright.
Qed.

Lemma below_not_nan (f bound : float) : SFltb f bound = true -> f <> S754_nan.
Proof. intros H ->. discriminate H. Qed.

(** X12: no record of the list that [load_cat] returns has a flux or a
    FWHM that is a NaN, zero or negative, nor an elongation that is a
    NaN. *)
Theorem kept_records_are_ordinary filepath bytes one :
  readable filepath = Some bytes ->
  In one (snd (load_cat atof readable filepath [])) ->
  F32.positive (info one NDX_FLUX) = true /\
  F32.positive (info one NDX_FWHM) = true /\
  info one NDX_ELON <> S754_nan.
Proof.
  intros H Hin.
  apply (Permutation_in _ (Permutation_sym (load_cat_permutation atof readable _ _ H)))
    in Hin.
  apply filter_In in Hin. destruct Hin as [_ Hq].
  apply quality_cut_iff in Hq. destruct Hq as [Hf [Hw He]].
  unfold F32.gt, F32.lt in *. repeat split.
  - exact (above_positive _ _ thirty_positive Hf).
  - exact (above_positive (F32.of_int 1) _ eq_refl Hw).
  - exact (below_not_nan _ _ He).
Qed.

(** X13: the references that [select_refstar] takes from the list of
    [load_cat] are in descending order of flux, each with a flux at least
    that of the next, and each passes the cut. *)
Theorem selected_references_descend filepath bytes w h refs :
  readable filepath = Some bytes ->
  select_refstar (snd (load_cat atof readable filepath [])) w h [] = Some refs ->
  sorted_by less_brightness refs /\
  (forall i a b,
     nth_error refs i = Some a -> nth_error refs (S i) = Some b ->
     F32.ge (info a NDX_FLUX) (info b NDX_FLUX) = true) /\
  Forall (fun one => quality_cut one = true) refs.
Proof.
  intros H Hsel.
  destruct (select_refstar_pushes _ _ _ _ _ Hsel) as [sub [-> Hsub]].
  cbn [app]. pose proof (load_cat_sorted atof readable _ _ H) as Hs.
  pose proof (load_cat_permutation atof readable _ _ H) as Hp.
  assert (Hsorted : sorted_by less_brightness sub)
    by (eapply subseq_sorted; eassumption).
  assert (Hcut : forall one, In one sub -> quality_cut one = true).
  { intros one Hin. apply (subseq_In _ _ Hsub) in Hin.
    apply (Permutation_in _ (Permutation_sym Hp)) in Hin.
    apply filter_In in Hin. exact (proj2 Hin). }
  split; [exact Hsorted | split].
  - intros i a b Ha Hb.
    pose proof (StronglySorted_adjacent _ _ Hsorted i a b Ha Hb) as Hab.
    unfold less_brightness, F32.gt in Hab. unfold F32.ge.
    apply SFltb_false_leb; [| |exact Hab];
      apply quality_cut_flux, Hcut; eapply nth_error_In; eassumption.
  - apply Forall_forall. exact Hcut.
Qed.

Lemma declared_rows_output_axy refs filepath :
  declared_rows (output_axy path_exists fits_status ffgerr refs filepath) =
  [List.length refs].
Proof.
  unfold output_axy.
  destruct (path_exists filepath); destruct (fits_status _ =? 0); reflexivity.
Qed.

(** X15: without a catalogue the driver stops before the selection,
    whatever the other arguments are: with fewer than three arguments it
    prints the usage and returns -1; when the catalogue cannot be opened it
    prints the failure with the path and returns 0. No file is created in
    either case. *)
Theorem main_without_catalogue argv :
  ((List.length argv < 4)%nat ->
   main atof readable path_exists fits_status ffgerr atoi replace_extension argv
   = Some (usage argv, -1) /\
   created_files (usage argv) = []) /\
  ((4 <= List.length argv)%nat -> readable (nth 1 argv "") = None ->
   main atof readable path_exists fits_status ffgerr atoi replace_extension argv
   = Some ([Stdout ("failed to load CAT file: " ++ nth 1 argv "")%string], 0)).
Proof.
  unfold main. split.
  - intros H. apply Nat.ltb_lt in H. rewrite H. split; reflexivity.
  - intros H Hopen. apply Nat.ltb_ge in H. rewrite H.
    unfold load_cat, fopen. now rewrite Hopen.
Qed.

(** X16: every run of the driver that is defined returns -1 when it has
    fewer than three arguments and 0 otherwise, creates no file or the one
    file named after the catalogue with the extension ".axy", and creates
    that file with at least 5 rows. *)
Theorem main_outcomes argv trace status :
  main atof readable path_exists fits_status ffgerr atoi replace_extension argv
  = Some (trace, status) ->
  (status = if (List.length argv <? 4)%nat then -1 else 0) /\
  (created_files trace = [] \/
   created_files trace = [replace_extension (nth 1 argv "") ".axy"]) /\
  (created_files trace = [] -> declared_rows trace = []) /\
  (forall n, In n (declared_rows trace) -> (5 <= n)%nat).
Proof.
  unfold main. intros H.
  destruct (List.length argv <? 4)%nat.
  - inversion H; subst. repeat split; auto. intros n [].
  - destruct (load_cat atof readable (nth 1 argv "") []) as [[|] objs].
    + apply bind_some in H. destruct H as [refs [_ H]].
      destruct (5 <=? List.length refs)%nat eqn:E; inversion H; subst.
      * apply Nat.leb_le in E.
        rewrite declared_rows_output_axy, created_files_output_axy.
        repeat split; auto.
        -- discriminate.
        -- intros n [<-|[]]. exact E.
      * repeat split; auto. intros n [].
    + inversion H; subst. repeat split; auto. intros n [].
Qed.

Unset Default Proof Using.

End Stages.

(** ** Instances of the further properties *)

Lemma read_lines_short_lines_sample :
  Forall (fun l => has_newline l = false /\ (String.length l <= 198)%nat)
         ["# x y"; "1 2 50 3 1"; ""] /\
  read_lines (mk_FILE (join (map text_line ["# x y"; "1 2 50 3 1"; ""])) false) =
  map text_line ["# x y"; "1 2 50 3 1"; ""].
Proof.
  assert (H : Forall (fun l => has_newline l = false /\ (String.length l <= 198)%nat)
                     ["# x y"; "1 2 50 3 1"; ""])
    by (repeat (constructor; [split; [reflexivity | simpl; lia]|]); constructor).
  split; [exact H|]. exact (read_lines_short_lines _ H).
Defined.

Lemma select_refstar_subsequence_sample :
  select_refstar [star 200 300; star 512 10; star 300 200] 512 512 [] =
  Some [star 200 300; star 300 200] /\
  exists sub,
    [star 200 300; star 300 200] = [] ++ sub /\
    subseq sub [star 200 300; star 512 10; star 300 200].
Proof.
  assert (H : select_refstar [star 200 300; star 512 10; star 300 200] 512 512 [] =
              Some [star 200 300; star 300 200]) by reflexivity.
  split; [exact H|]. exact (proj1 (select_refstar_subsequence _ _ _ _ _ H)).
Defined.

Lemma select_refstar_total_bound_sample :
  (grid_count 512 = Some 4 /\ 4 <= 4 * 4 <= CInt.INT_MAX /\
   select_refstar (repeat (star 200 300) 8) 512 512 [] =
   Some (repeat (star 200 300) 6)) /\
  Z.of_nat (List.length (repeat (star 200 300) 6)) <= 6 * (4 * 4).
Proof.
  assert (Hg : grid_count 512 = Some 4) by reflexivity.
  assert (Hn : 4 <= 4 * 4 <= CInt.INT_MAX) by (vm_compute; intuition discriminate).
  assert (Hs : select_refstar (repeat (star 200 300) 8) 512 512 [] =
               Some (repeat (star 200 300) 6)) by reflexivity.
  split; [auto|].
  exact (select_refstar_total_bound _ 512 512 4 4 _ Hg Hg Hn Hs).
Defined.

Lemma select_refstar_defined_iff_sample :
  (grid_count 512 = Some 4 /\ 4 <= 4 * 4 <= CInt.INT_MAX) /\
  (select_refstar [star 200 300; star (-200) 300] 512 512 [] <> None <->
   Forall (fun it => access_defined 4 4 (grid_origin 512) (grid_origin 512)
                       (4 * 4) it = true)
          [star 200 300; star (-200) 300]).
Proof.
  assert (Hg : grid_count 512 = Some 4) by reflexivity.
  assert (Hn : 4 <= 4 * 4 <= CInt.INT_MAX) by (vm_compute; intuition discriminate).
  split; [auto|].
  exact (select_refstar_defined_iff _ 512 512 [] 4 4 Hg Hg Hn).
Defined.

Lemma nonfinite_coordinate_undefined_sample :
  nonfinite (info (mk_aobject S754_nan (F32.of_int 10) (F32.of_int 100)
                     (F32.of_int 3) (F32.of_int 1)) NDX_X) /\
  cell_of 0 0 (mk_aobject S754_nan (F32.of_int 10) (F32.of_int 100)
                 (F32.of_int 3) (F32.of_int 1)) = None /\
  select_step 4 4 0 0 (repeat 0 16, [])
    (mk_aobject S754_nan (F32.of_int 10) (F32.of_int 100)
       (F32.of_int 3) (F32.of_int 1)) = None.
Proof.
  assert (H : nonfinite (info (mk_aobject S754_nan (F32.of_int 10) (F32.of_int 100)
                                 (F32.of_int 3) (F32.of_int 1)) NDX_X))
    by (left; reflexivity).
  split; [exact H|].
  exact (nonfinite_coordinate_undefined 4 4 0 0 (repeat 0 16, []) _ (or_introl H)).
Defined.

Lemma selection_serves_first_six_sample :
  (select_loop 4 4 0 0 (repeat 0 16, []) (repeat (star 200 300) 6) =
   Some (list_set (repeat 0%Z 16) 2%nat 6%Z, repeat (star 200 300) 6) /\
   counter_index 4 4 0 0 (star 300 200) = Some 2 /\
   select_step 4 4 0 0 (list_set (repeat 0%Z 16) 2%nat 6%Z, repeat (star 200 300) 6)
     (star 300 200) =
   Some (list_set (repeat 0%Z 16) 2%nat 6%Z, repeat (star 200 300) 6)) /\
  snd (list_set (repeat 0%Z 16) 2%nat 6%Z, repeat (star 200 300) 6) =
  if (hits 4 4 0 0 2 (snd (list_set (repeat 0%Z 16) 2%nat 6%Z, repeat (star 200 300) 6))
      <? 6)%nat
  then snd (list_set (repeat 0%Z 16) 2%nat 6%Z, repeat (star 200 300) 6) ++ [star 300 200]
  else snd (list_set (repeat 0%Z 16) 2%nat 6%Z, repeat (star 200 300) 6).
Proof.
  assert (Hl : select_loop 4 4 0 0 (repeat 0 16, []) (repeat (star 200 300) 6) =
               Some (list_set (repeat 0%Z 16) 2%nat 6%Z, repeat (star 200 300) 6))
    by reflexivity.
  assert (Hk : counter_index 4 4 0 0 (star 300 200) = Some 2) by reflexivity.
  assert (Hs : select_step 4 4 0 0
                 (list_set (repeat 0%Z 16) 2%nat 6%Z, repeat (star 200 300) 6)
                 (star 300 200) =
               Some (list_set (repeat 0%Z 16) 2%nat 6%Z, repeat (star 200 300) 6))
    by reflexivity.
  split; [auto|].
  exact (selection_serves_first_six 4 4 0 0 16 _ _ _ _ 2 Hl Hk Hs).
Defined.

Lemma long_comment_continuation_sample :
  (is_comment (String "#" (padding 198)) = true /\
   has_newline (String "#" (padding 198)) = false /\
   String.length (String "#" (padding 198)) = 199%nat) /\
  cat_loop atof_int
    (mk_FILE (String "#" (padding 198) ++ text_line "1 2 50 3 1") false) [] =
  cat_loop atof_int (mk_FILE (text_line "1 2 50 3 1") false) [].
Proof.
  assert (Hc : is_comment (String "#" (padding 198)) = true) by reflexivity.
  assert (Hn : has_newline (String "#" (padding 198)) = false) by reflexivity.
  assert (Hl : String.length (String "#" (padding 198)) = 199%nat) by reflexivity.
  split; [auto|].
  exact (long_comment_continuation atof_int _ (text_line "1 2 50 3 1") [] Hc Hn Hl).
Defined.

Lemma tokens_after_five_ignored_sample :
  strtok (text_line "1 2 50 3 1 99 98") seps =
  ["1"; "2"; "50"; "3"; "1"; "99"; text_line "98"] /\
  parse_line atof_int (text_line "1 2 50 3 1 99 98") =
  mk_aobject (atof_int "1") (atof_int "2") (atof_int "50") (atof_int "3")
             (atof_int "1").
Proof.
  assert (H : strtok (text_line "1 2 50 3 1 99 98") seps =
              ["1"; "2"; "50"; "3"; "1"; "99"; text_line "98"]) by reflexivity.
  split; [exact H|].
  exact (tokens_after_five_ignored atof_int _ _ _ _ _ _ _ H).
Defined.

Lemma kept_records_are_ordinary_sample :
  (one_file "sample.cat" sample_cat "sample.cat" = Some sample_cat /\
   In (record 50 60 80 3 1)
      (snd (load_cat atof_int (sorter := insertion_sorter)
              (one_file "sample.cat" sample_cat) "sample.cat" []))) /\
  F32.positive (info (record 50 60 80 3 1) NDX_FLUX) = true /\
  F32.positive (info (record 50 60 80 3 1) NDX_FWHM) = true /\
  info (record 50 60 80 3 1) NDX_ELON <> S754_nan.
Proof.
  assert (Ho : one_file "sample.cat" sample_cat "sample.cat" = Some sample_cat)
    by reflexivity.
  assert (Hin : In (record 50 60 80 3 1)
                   (snd (load_cat atof_int (sorter := insertion_sorter)
                           (one_file "sample.cat" sample_cat) "sample.cat" [])))
    by (vm_compute; left; reflexivity).
  split; [auto|].
  exact (kept_records_are_ordinary atof_int (sorter := insertion_sorter)
           (one_file "sample.cat" sample_cat) "sample.cat" sample_cat _ Ho Hin).
Defined.

Lemma selected_references_descend_sample :
  (one_file "sample.cat" sample_cat "sample.cat" = Some sample_cat /\
   select_refstar
     (snd (load_cat atof_int (sorter := insertion_sorter)
             (one_file "sample.cat" sample_cat) "sample.cat" [])) 512 512 []
   = Some sample_refs) /\
  sorted_by less_brightness sample_refs /\
  (forall i a b,
     nth_error sample_refs i = Some a -> nth_error sample_refs (S i) = Some b ->
     F32.ge (info a NDX_FLUX) (info b NDX_FLUX) = true) /\
  Forall (fun one => quality_cut one = true) sample_refs.
Proof.
  assert (Ho : one_file "sample.cat" sample_cat "sample.cat" = Some sample_cat)
    by reflexivity.
  assert (Hs : select_refstar
     (snd (load_cat atof_int (sorter := insertion_sorter)
             (one_file "sample.cat" sample_cat) "sample.cat" [])) 512 512 []
   = Some sample_refs) by (vm_compute; reflexivity).
  split; [auto|].
  exact (selected_references_descend atof_int (sorter := insertion_sorter)
           (one_file "sample.cat" sample_cat) "sample.cat" sample_cat
           512 512 sample_refs Ho Hs).
Defined.

Lemma main_without_catalogue_sample :
  ((4 <= List.length sample_argv)%nat /\
   (fun _ : string => @None string) (nth 1 sample_argv "") = None) /\
  main atof_int (sorter := insertion_sorter) (fun _ => None)
    (fun _ => false) (fun _ => 0) (fun _ => "") atoi_dec replace_extension_name
    sample_argv =
  Some ([Stdout ("failed to load CAT file: " ++ nth 1 sample_argv "")%string], 0).
Proof.
  assert (Hc : (4 <= List.length sample_argv)%nat) by (simpl; lia).
  split; [auto|].
  exact (proj2 (main_without_catalogue atof_int (sorter := insertion_sorter)
                  (fun _ => None) (fun _ => false) (fun _ => 0) (fun _ => "")
                  atoi_dec replace_extension_name sample_argv) Hc eq_refl).
Defined.

Lemma main_outcomes_sample :
  main atof_int (sorter := insertion_sorter) (one_file "sample.cat" sample_cat)
    (fun _ => false) (fun _ => 0) (fun _ => "") atoi_dec replace_extension_name
    sample_argv =
  Some (output_axy (fun _ => false) (fun _ => 0) (fun _ => "") sample_refs
          "sample.axy", 0) /\
  (0 = if (List.length sample_argv <? 4)%nat then -1 else 0) /\
  (created_files
     (output_axy (fun _ => false) (fun _ => 0) (fun _ => "") sample_refs
        "sample.axy") = [] \/
   created_files
     (output_axy (fun _ => false) (fun _ => 0) (fun _ => "") sample_refs
        "sample.axy") = [replace_extension_name (nth 1 sample_argv "") ".axy"]) /\
  (created_files
     (output_axy (fun _ => false) (fun _ => 0) (fun _ => "") sample_refs
        "sample.axy") = [] ->
   declared_rows
     (output_axy (fun _ => false) (fun _ => 0) (fun _ => "") sample_refs
        "sample.axy") = []) /\
  (forall n,
     In n (declared_rows
             (output_axy (fun _ => false) (fun _ => 0) (fun _ => "") sample_refs
                "sample.axy")) -> (5 <= n)%nat).
Proof.
  assert (H : main atof_int (sorter := insertion_sorter)
                (one_file "sample.cat" sample_cat)
                (fun _ => false) (fun _ => 0) (fun _ => "") atoi_dec
                replace_extension_name sample_argv =
              Some (output_axy (fun _ => false) (fun _ => 0) (fun _ => "")
                      sample_refs "sample.axy", 0))
    by (vm_compute; reflexivity).
  split; [exact H|].
  exact (main_outcomes atof_int (sorter := insertion_sorter)
           (one_file "sample.cat" sample_cat)
           (fun _ => false) (fun _ => 0) (fun _ => "") atoi_dec
           replace_extension_name sample_argv _ _ H).
Defined.

(** ** The lines behind the records *)

(** When each line of the file has at most 198 bytes before its newline,
    the pieces that [fgets] delivers are the lines. *)
Lemma read_lines_text_lines (ls : list string) :
  Forall (fun l => has_newline l = false /\ (String.length l <= 198)%nat) ls ->
  read_lines (mk_FILE (join (map text_line ls)) false) = map text_line ls.
Proof.
  induction ls as [|l rest IH]; intros H; simpl.
  - apply read_lines_empty.
  - inversion H as [|? ? [Hnl Hlen] Hrest]; subst.
    unfold text_line at 1. rewrite append_assoc. simpl.
    rewrite read_lines_line by assumption. now rewrite IH.
Qed.

Section Pieces.

Set Default Proof Using "Type".

Variable atof : string -> float.
Context {sorter : StdSort}.
Variable readable : string -> option string.

Lemma short_piece_rejected piece :
  (List.length (strtok piece seps) < 4)%nat ->
  quality_cut (parse_line atof piece) = false.
Proof.
  intros Hlen. apply zero_fwhm_rejected, parse_line_short.
  unfold NDX_FWHM, NDX_NUM, NDX_ELON. lia.
Qed.

Lemma kept_record_piece bytes one :
  In one (filter quality_cut (parsed_records atof (mk_FILE bytes false))) ->
  exists piece t0 t1 t2 t3 rest,
    In piece (read_lines (mk_FILE bytes false)) /\
    is_comment piece = false /\
    strtok piece seps = t0 :: t1 :: t2 :: t3 :: rest /\
    one = mk_aobject (atof t0) (atof t1) (atof t2) (atof t3)
            (match rest with [] => F32.zero | t4 :: _ => atof t4 end).
Proof.
  intros Hin. apply filter_In in Hin. destruct Hin as [Hin Hq].
  unfold parsed_records in Hin. apply in_map_iff in Hin.
  destruct Hin as [piece [Hone Hpiece]]. apply filter_In in Hpiece.
  destruct Hpiece as [Hpiece Hc]. apply negb_true_iff in Hc.
  destruct (strtok piece seps) as [|t0 [|t1 [|t2 [|t3 rest]]]] eqn:E;
    try (rewrite <- Hone, short_piece_rejected in Hq;
         [discriminate | rewrite E; simpl; lia]).
  exists piece, t0, t1, t2, t3, rest. repeat split; try assumption.
  rewrite <- Hone. unfold parse_line. rewrite E. apply fill_four.
Qed.

(** C8, as the program has it: a record of the list that [load_cat]
    returns comes from a piece of the file as [fgets] delivers it, of at
    most 199 bytes, that does not start with ['#'] and has at least four
    tokens; its x, y, flux and FWHM are read from the first four tokens of
    the piece and its elongation from the fifth, or is 0.0 when the piece
    has only four. When each line of the file has at most 198 bytes before
    its newline the pieces are the lines, and the record comes from a line
    of the file that is not a comment and has at least four tokens. A line
    or piece with fewer than four tokens is not pushed. *)
Theorem candidates_come_from_four_tokens filepath bytes :
  readable filepath = Some bytes ->
  (forall one, In one (snd (load_cat atof readable filepath [])) ->
     exists piece t0 t1 t2 t3 rest,
       In piece (read_lines (mk_FILE bytes false)) /\
       (1 <= String.length piece <= 199)%nat /\
       is_comment piece = false /\
       strtok piece seps = t0 :: t1 :: t2 :: t3 :: rest /\
       one = mk_aobject (atof t0) (atof t1) (atof t2) (atof t3)
               (match rest with [] => F32.zero | t4 :: _ => atof t4 end)) /\
  (forall ls,
     bytes = join (map text_line ls) ->
     Forall (fun l => has_newline l = false /\ (String.length l <= 198)%nat) ls ->
     forall one, In one (snd (load_cat atof readable filepath [])) ->
     exists l t0 t1 t2 t3 rest,
       In l ls /\
       is_comment (text_line l) = false /\
       strtok (text_line l) seps = t0 :: t1 :: t2 :: t3 :: rest /\
       one = mk_aobject (atof t0) (atof t1) (atof t2) (atof t3)
               (match rest with [] => F32.zero | t4 :: _ => atof t4 end)) /\
  (forall piece objs, (List.length (strtok piece seps) < 4)%nat ->
     scan_line atof piece objs = objs).
Proof.
  intros H.
  assert (Hkept : forall one,
            In one (snd (load_cat atof readable filepath [])) ->
            In one (filter quality_cut (parsed_records atof (mk_FILE bytes false)))).
  { intros one Hin.
    exact (Permutation_in _
             (Permutation_sym (load_cat_permutation atof readable _ _ H)) Hin). }
  split; [|split].
  - intros one Hin.
    destruct (kept_record_piece _ _ (Hkept one Hin))
      as [piece [t0 [t1 [t2 [t3 [rest [Hp [Hc [Ht Ho]]]]]]]]].
    exists piece, t0, t1, t2, t3, rest. repeat split; try assumption;
      destruct (read_lines_parts _ (mk_FILE bytes false) eq_refl) as [_ Hall];
      try (unfold drained; simpl; discriminate);
      rewrite Forall_forall in Hall; apply (Hall piece Hp).
  - intros ls Hbytes Hls one Hin.
    destruct (kept_record_piece _ _ (Hkept one Hin))
      as [piece [t0 [t1 [t2 [t3 [rest [Hp [Hc [Ht Ho]]]]]]]]].
    rewrite Hbytes, (read_lines_text_lines _ Hls) in Hp.
    apply in_map_iff in Hp. destruct Hp as [l [<- Hl]].
    exists l, t0, t1, t2, t3, rest. repeat split; assumption.
  - intros piece objs Hlen. unfold scan_line.
    now rewrite short_piece_rejected.
Qed.

Unset Default Proof Using.

End Pieces.

Lemma candidates_come_from_four_tokens_sample :
  (one_file "sample.cat" sample_cat "sample.cat" = Some sample_cat /\
   sample_cat =
   join (map text_line
           ["# x y flux fwhm elongation";
            "10 10 50 3 1"; "30 40 20 3 1"; "50 60 80 3 1";
            "70 20 60 3 1"; "90 90 70 3 1"; "20 80 40 3 1"]) /\
   Forall (fun l => has_newline l = false /\ (String.length l <= 198)%nat)
          ["# x y flux fwhm elongation";
           "10 10 50 3 1"; "30 40 20 3 1"; "50 60 80 3 1";
           "70 20 60 3 1"; "90 90 70 3 1"; "20 80 40 3 1"]) /\
  forall one,
    In one (snd (load_cat atof_int (sorter := insertion_sorter)
                   (one_file "sample.cat" sample_cat) "sample.cat" [])) ->
    exists l t0 t1 t2 t3 rest,
      In l ["# x y flux fwhm elongation";
            "10 10 50 3 1"; "30 40 20 3 1"; "50 60 80 3 1";
            "70 20 60 3 1"; "90 90 70 3 1"; "20 80 40 3 1"] /\
      is_comment (text_line l) = false /\
      strtok (text_line l) seps = t0 :: t1 :: t2 :: t3 :: rest /\
      one = mk_aobject (atof_int t0) (atof_int t1) (atof_int t2) (atof_int t3)
              (match rest with [] => F32.zero | t4 :: _ => atof_int t4 end).
Proof.
  assert (Ho : one_file "sample.cat" sample_cat "sample.cat" = Some sample_cat)
    by reflexivity.
  assert (Hb : sample_cat =
               join (map text_line
                       ["# x y flux fwhm elongation";
                        "10 10 50 3 1"; "30 40 20 3 1"; "50 60 80 3 1";
                        "70 20 60 3 1"; "90 90 70 3 1"; "20 80 40 3 1"]))
    by reflexivity.
  assert (Hl : Forall (fun l => has_newline l = false /\
                                (String.length l <= 198)%nat)
                      ["# x y flux fwhm elongation";
                       "10 10 50 3 1"; "30 40 20 3 1"; "50 60 80 3 1";
                       "70 20 60 3 1"; "90 90 70 3 1"; "20 80 40 3 1"])
    by (repeat (constructor; [split; [reflexivity | simpl; lia]|]); constructor).
  split; [auto|].
  exact (proj1 (proj2 (candidates_come_from_four_tokens atof_int
                         (sorter := insertion_sorter)
                         (one_file "sample.cat" sample_cat)
                         "sample.cat" sample_cat Ho)) _ Hb Hl).
Defined.
